(** * difftrace: change-impact mapping (src/difftrace/diff.py)

    A shallow embedding of [get_changed_files], [relativize_to_workspace]
    and [map_files_to_packages] of [diff.py], and the properties the
    specification states about them.

    Conventions.
    - A Python [str] is a [string]; one [ascii] stands for one code point
      (the code points below 256), so [String.length] is Python's [len].
    - [s.startswith(t)] is [String.prefix t s], [s + t] is [s +:+ t].
    - A [set[str]] is a [gset string]; an optional argument defaulting to
      [None] is an [option].
    - [packages : dict[str, WorkspacePackage]] is the list of its items in
      insertion order, which is the order [packages.values()] iterates in.
    - A resolved [pathlib.Path] is the list of its components below the
      POSIX root. *)

From Stdlib Require Import Ascii.
From Stdlib Require String.
From stdpp Require Import base list gmap sets strings sorting.

(** ** Strings *)

(** [s[n:]] for [0 <= n]. *)
Fixpoint slice_from (n : nat) (s : string) : string :=
  match n, s with
  | O, _ => s
  | S n', String _ s' => slice_from n' s'
  | S _, EmptyString => EmptyString
  end.

(** [needle in hay]. *)
Fixpoint contains (needle hay : string) : bool :=
  String.prefix needle hay ||
  match hay with
  | EmptyString => false
  | String _ hay' => contains needle hay'
  end.

(** ** Paths *)

(** The components of a resolved, absolute path. *)
Abbreviation Path := (list string) (only parsing).

(** ** The package registry *)

(** difftrace.graph.WorkspacePackage, the two attributes read here. *)
Record WorkspacePackage := mkPackage {
  name : string;
  source_path : string
}.

#[global] Instance WorkspacePackage_eq_dec : EqDecision WorkspacePackage.
Proof. solve_decision. Defined.

Abbreviation Packages := (list (string * WorkspacePackage)).

(** [packages.values()] *)
Definition values (packages : Packages) : list WorkspacePackage :=
  map snd packages.

(** ** Constants (diff.py, lines 9-10) *)

Definition DEFAULT_ROOT_TRIGGERS : gset string := {[ "pyproject.toml"; "uv.lock" ]}.
Definition DEFAULT_DIR_TRIGGERS : gset string := {[ ".github/" ]}.

(** ** map_files_to_packages (diff.py, lines 79-131) *)

Module Mapper.

(** [sorted(xs, key=lambda p: len(p.source_path), reverse=True)]: a stable
    sort, longest [source_path] first; packages whose keys are equal keep
    their relative order. *)
Definition key (p : WorkspacePackage) : nat := String.length (source_path p).

Fixpoint insert_desc (p : WorkspacePackage) (l : list WorkspacePackage)
  : list WorkspacePackage :=
  match l with
  | [] => [p]
  | q :: l' => if Nat.ltb (key p) (key q) then q :: insert_desc p l'
               else p :: q :: l'
  end.

Fixpoint sorted_desc (l : list WorkspacePackage) : list WorkspacePackage :=
  match l with
  | [] => []
  | p :: l' => insert_desc p (sorted_desc l')
  end.

Definition sorted_packages (packages : Packages) : list WorkspacePackage :=
  sorted_desc (values packages).

(** [filepath in root_triggers] *)
Definition in_root_triggers (filepath : string) (root_triggers : gset string) : bool :=
  bool_decide (filepath ∈ root_triggers).

(** [any(filepath.startswith(trigger) for trigger in dir_triggers)] *)
Definition any_startswith (filepath : string) (dir_triggers : gset string) : bool :=
  existsb (fun trigger => String.prefix trigger filepath) (elements dir_triggers).

(** The inner loop (lines 123-129): scan the sorted packages, skip the
    virtual root, add the first match and break. *)
Fixpoint attribute (filepath : string) (pkgs : list WorkspacePackage)
    (directly_changed : gset string) : gset string :=
  match pkgs with
  | [] => directly_changed
  | pkg :: rest =>
      if String.eqb (source_path pkg) "." then
        attribute filepath rest directly_changed
      else if String.prefix (source_path pkg +:+ "/") filepath then
        {[ name pkg ]} ∪ directly_changed
      else attribute filepath rest directly_changed
  end.

(** One iteration of the outer loop (lines 112-129) on the state
    [(directly_changed, test_all)]. *)
Definition step (root_triggers dir_triggers : gset string)
    (sorted : list WorkspacePackage) (st : gset string * bool)
    (filepath : string) : gset string * bool :=
  if in_root_triggers filepath root_triggers then (st.1, true)
  else if any_startswith filepath dir_triggers then (st.1, true)
  else (attribute filepath sorted st.1, st.2).

Fixpoint scan (root_triggers dir_triggers : gset string)
    (sorted : list WorkspacePackage) (changed_files : list string)
    (st : gset string * bool) : gset string * bool :=
  match changed_files with
  | [] => st
  | filepath :: rest =>
      scan root_triggers dir_triggers sorted rest
           (step root_triggers dir_triggers sorted st filepath)
  end.

Definition map_files_to_packages (changed_files : list string)
    (packages : Packages)
    (root_triggers dir_triggers : option (gset string)) : gset string * bool :=
  let root_triggers := default DEFAULT_ROOT_TRIGGERS root_triggers in
  let dir_triggers := default DEFAULT_DIR_TRIGGERS dir_triggers in
  scan root_triggers dir_triggers (sorted_packages packages) changed_files (∅, false).

(** *** Vocabulary of the properties *)

(** [ge_key p q]: [p] may stand before [q] in the sorted registry. *)
Definition ge_key (p q : WorkspacePackage) : Prop := key q ≤ key p.

(** [is_match f p]: the inner loop stops at [p] for the file [f]. *)
Definition is_match (filepath : string) (p : WorkspacePackage) : bool :=
  negb (String.eqb (source_path p) ".") &&
  String.prefix (source_path p +:+ "/") filepath.

(** [is_trigger rt dt f]: the outer loop takes one of its two [continue]s. *)
Definition is_trigger (root_triggers dir_triggers : gset string)
    (filepath : string) : bool :=
  in_root_triggers filepath root_triggers || any_startswith filepath dir_triggers.

(** The directly-changed set after one more file. *)
Definition attribute_unless_trigger (rt dt : gset string)
    (sorted : list WorkspacePackage) (dc : gset string) (filepath : string)
  : gset string :=
  if is_trigger rt dt filepath then dc else attribute filepath sorted dc.

End Mapper.

(** ** relativize_to_workspace (diff.py, lines 49-76) *)

Module Relativizer.

(** [str(p)] for a relative path: its components joined by ["/"], and
    ["."] for the empty path. *)
Definition path_str (parts : Path) : string :=
  match parts with
  | [] => "."
  | _ => String.concat "/" parts
  end.

(** [p.relative_to(base)]; [None] stands for [ValueError], raised when
    [base] is not [p] or one of its ancestors. *)
Fixpoint relative_to (p base : Path) {struct base} : option Path :=
  match base, p with
  | [], _ => Some p
  | b :: base', c :: p' => if decide (b = c) then relative_to p' base' else None
  | _ :: _, [] => None
  end.

(** The loop of lines 70-75, on the accumulated [result]. *)
Fixpoint relativize_loop (prefix : string) (changed_files result : list string)
  : list string :=
  let prefix_with_slash := prefix +:+ "/" in
  match changed_files with
  | [] => result
  | f :: rest =>
      if String.prefix prefix_with_slash f then
        relativize_loop prefix rest
          (result ++ [slice_from (String.length prefix_with_slash) f])
      else if String.eqb f prefix then
        relativize_loop prefix rest (result ++ ["."])
      else relativize_loop prefix rest result
  end.

(** [resolve] stands for [Path.resolve], which reads the file system. *)
Definition relativize_to_workspace (resolve : Path → Path)
    (changed_files : list string) (git_root workspace_root : Path) : list string :=
  let workspace_root := resolve workspace_root in
  let git_root := resolve git_root in
  if decide (workspace_root = git_root) then changed_files
  else
    match relative_to workspace_root git_root with
    | None => []
    | Some rel => relativize_loop (path_str rel) changed_files []
    end.

(** What one surviving entry [o] of the result has to do with the changed
    file [f] it comes from. *)
Definition relativized (resolve : Path → Path) (git_root workspace_root : Path)
    (f o : string) : Prop :=
  (resolve workspace_root = resolve git_root ∧ o = f) ∨
  (∃ rel, rel ≠ [] ∧ resolve workspace_root = resolve git_root ++ rel ∧
     (f = path_str rel +:+ "/" +:+ o ∨ (f = path_str rel ∧ o = "."))).

(** The rule the loop applies to one file. *)
Definition relativize_one (prefix f : string) : option string :=
  if String.prefix (prefix +:+ "/") f then
    Some (slice_from (String.length (prefix +:+ "/")) f)
  else if String.eqb f prefix then Some "."
  else None.

End Relativizer.

(** ** get_changed_files (diff.py, lines 26-46) *)

Module Extractor.

(** [subprocess.CompletedProcess], with the streams as text. *)
Record CompletedProcess := mkCompleted {
  returncode : Z;
  stdout : string;
  stderr : string
}.

Inductive Exception :=
  | ValueError (msg : string)
  | RuntimeError (msg : string).

(** [c.isspace()], for the code points below 256. *)
Definition is_whitespace (c : ascii) : bool :=
  let n := N_of_ascii c in
  ((9 <=? n) && (n <=? 13) || (28 <=? n) && (n <=? 32) || (n =? 133) || (n =? 160))%N.

(** The line boundaries of [str.splitlines], for the code points below 256. *)
Definition is_linebreak (c : ascii) : bool :=
  let n := N_of_ascii c in
  ((10 <=? n) && (n <=? 13) || (28 <=? n) && (n <=? 30) || (n =? 133))%N.

Definition LF : ascii := ascii_of_N 10.
Definition CR : ascii := ascii_of_N 13.

Fixpoint lstrip (s : string) : string :=
  match s with
  | EmptyString => EmptyString
  | String c s' => if is_whitespace c then lstrip s' else s
  end.

Fixpoint rstrip (s : string) : string :=
  match s with
  | EmptyString => EmptyString
  | String c s' =>
      match rstrip s' with
      | EmptyString => if is_whitespace c then EmptyString else String c EmptyString
      | r => String c r
      end
  end.

(** [s.strip()] *)
Definition strip (s : string) : string := rstrip (lstrip s).

(** [s.splitlines()]: [cur] is the line read so far, [after_cr] tells that
    the previous character was a carriage return, which a line feed then
    completes. *)
Fixpoint splitlines_from (after_cr : bool) (cur : string) (s : string) : list string :=
  match s with
  | EmptyString => match cur with EmptyString => [] | _ => [cur] end
  | String c s' =>
      if after_cr && bool_decide (c = LF) then splitlines_from false cur s'
      else if is_linebreak c then cur :: splitlines_from (bool_decide (c = CR)) "" s'
      else splitlines_from false (cur +:+ String c "") s'
  end.

Definition splitlines (s : string) : list string := splitlines_from false "" s.

(** The command of line 32. *)
Definition diff_command (base_ref : string) : list string :=
  ["git"; "diff"; "--name-only"; base_ref +:+ "...HEAD"].

(** [run] stands for [subprocess.run(..., capture_output=True, text=True,
    cwd=...)]; a raised exception is the left summand. *)
Definition get_changed_files (run : list string → option Path → CompletedProcess)
    (base_ref : string) (repo_root : option Path) : Exception + list string :=
  let result := run (diff_command base_ref) repo_root in
  if decide (returncode result ≠ 0%Z) then
    let stderr := strip (stderr result) in
    if contains "unknown revision" stderr || contains "not a git repository" stderr then
      inl (ValueError ("Could not resolve ref '" +:+ base_ref +:+ "'. " +:+
                       "Does the branch/ref exist? " +:+
                       "Try 'git fetch' or use --base with a valid ref."))
    else inl (RuntimeError ("git diff failed: " +:+ stderr))
  else inr (filter (λ f, f ≠ "") (splitlines (strip (stdout result)))).

(** The listing [git diff --name-only] writes for the paths [ls]: one line
    each. *)
Fixpoint unlines (ls : list string) : string :=
  match ls with
  | [] => ""
  | l :: ls' => l +:+ String LF (unlines ls')
  end.

(** No line boundary in a line. *)
Fixpoint no_linebreak (s : string) : bool :=
  match s with
  | EmptyString => true
  | String c s' => negb (is_linebreak c) && no_linebreak s'
  end.

(** The paths [ps] of a listing, in order: the first one does not begin
    with white space and the last one does not end with it. *)
Definition ends_untrimmed (ps : list string) : Prop :=
  (∀ l, head ps = Some l → lstrip l = l) ∧ (∀ l, last ps = Some l → rstrip l = l).

(** The message of the [ValueError] of lines 40-44. *)
Definition unresolvable_message (base_ref : string) : string :=
  "Could not resolve ref '" +:+ base_ref +:+
  "'. Does the branch/ref exist? Try 'git fetch' or use --base with a valid ref.".

(** ** get_git_root (diff.py, lines 13-23) *)

(** The command of line 16. *)
Definition toplevel_command : list string :=
  ["git"; "rev-parse"; "--show-toplevel"].

(** [run] stands for [subprocess.run] as above, [mk_path] for the
    constructor [Path(...)] of [pathlib]. *)
Definition get_git_root (run : list string → option Path → CompletedProcess)
    (mk_path : string → Path) (cwd : option Path) : Exception + Path :=
  let result := run toplevel_command cwd in
  if decide (returncode result ≠ 0%Z) then
    inl (ValueError "Not a git repository. Run difftrace from within a git repo.")
  else inr (mk_path (strip (stdout result))).

(** Nothing but white space in a string. *)
Fixpoint all_whitespace (s : string) : bool :=
  match s with
  | EmptyString => true
  | String c s' => is_whitespace c && all_whitespace s'
  end.

End Extractor.

(** ** Registries used in the examples *)

Definition registry_with_github : Packages :=
  [ ("core", mkPackage "core" "packages/core");
    ("ci", mkPackage "ci" ".github") ].

(** * Facts about strings *)

Section string_facts.
Implicit Types s t r : string.

Lemma string_app_cons c s t : String c s +:+ t = String c (s +:+ t).
Proof. reflexivity. Qed.

Lemma string_app_nil_l s : "" +:+ s = s.
Proof. reflexivity. Qed.

Lemma string_app_nil_r s : s +:+ "" = s.
Proof. induction s as [|c s IH]; [done|]. by rewrite string_app_cons, IH. Qed.

Lemma string_app_assoc s t r : (s +:+ t) +:+ r = s +:+ (t +:+ r).
Proof. induction s as [|c s IH]; [done|]. by rewrite !string_app_cons, IH. Qed.

Lemma string_length_app s t :
  String.length (s +:+ t) = String.length s + String.length t.
Proof. induction s as [|c s IH]; [done|]. rewrite string_app_cons. simpl. by rewrite IH. Qed.

Lemma string_prefix_nil s : String.prefix "" s = true.
Proof. by destruct s. Qed.

Lemma string_prefix_cons c d s t :
  String.prefix (String c s) (String d t) = bool_decide (c = d) && String.prefix s t.
Proof. simpl. destruct (ascii_dec c d); case_bool_decide; done. Qed.

Lemma string_prefix_app s r : String.prefix s (s +:+ r) = true.
Proof.
  induction s as [|c s IH]; [apply string_prefix_nil|].
  rewrite string_app_cons, string_prefix_cons, IH. by rewrite bool_decide_eq_true_2.
Qed.

Lemma string_prefix_inv s t : String.prefix s t = true → ∃ r, t = s +:+ r.
Proof.
  revert t. induction s as [|c s IH]; intros t H; [by exists t|].
  destruct t as [|d t]; [done|].
  rewrite string_prefix_cons in H. apply andb_true_iff in H as [Hc Hs].
  apply bool_decide_eq_true in Hc as ->.
  destruct (IH _ Hs) as [r ->]. by exists r.
Qed.

Lemma string_prefix_iff s t : String.prefix s t = true ↔ ∃ r, t = s +:+ r.
Proof. split; [apply string_prefix_inv|]. intros [r ->]. apply string_prefix_app. Qed.

Lemma string_prefix_refl s : String.prefix s s = true.
Proof. apply string_prefix_iff. exists "". by rewrite string_app_nil_r. Qed.

Lemma string_prefix_trans s t r :
  String.prefix s t = true → String.prefix t r = true → String.prefix s r = true.
Proof.
  intros [a ->]%string_prefix_inv [b ->]%string_prefix_inv.
  rewrite string_app_assoc. apply string_prefix_app.
Qed.

Lemma string_prefix_length s t :
  String.prefix s t = true → String.length s ≤ String.length t.
Proof. intros [r ->]%string_prefix_inv. rewrite string_length_app. lia. Qed.

(** Two prefixes of one string are nested: the shorter is a prefix of the
    longer. *)
Lemma string_prefix_nested s t r :
  String.prefix s r = true → String.prefix t r = true →
  String.length t ≤ String.length s → String.prefix t s = true.
Proof.
  revert s t. induction r as [|c r IH]; intros s t Hs Ht Hlen.
  - destruct t; [apply string_prefix_nil|by destruct s].
  - destruct t as [|d t]; [apply string_prefix_nil|].
    destruct s as [|e s]; [simpl in Hlen; lia|].
    rewrite string_prefix_cons in *.
    apply andb_true_iff in Hs as [Hs1 Hs2]. apply andb_true_iff in Ht as [Ht1 Ht2].
    apply bool_decide_eq_true in Hs1 as ->. apply bool_decide_eq_true in Ht1 as ->.
    rewrite bool_decide_eq_true_2 by done. simpl in *.
    apply IH; [done..|lia].
Qed.

Lemma slice_from_app s r : slice_from (String.length s) (s +:+ r) = r.
Proof. induction s as [|c s IH]; [by destruct r|]. by rewrite string_app_cons. Qed.

Lemma string_app_inv_head s t r : s +:+ t = s +:+ r → t = r.
Proof. apply (inj (String.app s)). Qed.
Lemma contains_prefix needle hay :
  String.prefix needle hay = true → contains needle hay = true.
Proof. intros H. destruct hay; cbn [contains]; by rewrite H. Qed.

Lemma contains_app needle s t : contains needle (s +:+ needle +:+ t) = true.
Proof.
  induction s as [|c s IH].
  - apply contains_prefix. exact (string_prefix_app needle t).
  - rewrite string_app_cons. cbn [contains]. rewrite IH. apply orb_true_r.
Qed.

Lemma contains_app_r needle s t :
  contains needle t = true → contains needle (s +:+ t) = true.
Proof.
  intros H. induction s as [|c s IH]; [done|].
  rewrite string_app_cons. cbn [contains]. rewrite IH. apply orb_true_r.
Qed.
End string_facts.

(** * Facts about the mapper *)

Module MapperFacts.
Import Mapper.

(** ** The sort *)

Lemma insert_desc_perm p l : insert_desc p l ≡ₚ p :: l.
Proof.
  induction l as [|q l IH]; simpl; [done|].
  destruct (key p <? key q); [|done].
  rewrite IH. apply Permutation_swap.
Qed.

Lemma sorted_desc_perm l : sorted_desc l ≡ₚ l.
Proof.
  induction l as [|p l IH]; simpl; [done|].
  by rewrite insert_desc_perm, IH.
Qed.

Lemma insert_desc_sorted p l :
  StronglySorted ge_key l → StronglySorted ge_key (insert_desc p l).
Proof.
  induction 1 as [|q l Hl IH Hq]; simpl.
  - repeat constructor.
  - destruct (Nat.ltb_spec (key p) (key q)) as [Hlt|Hge].
    + constructor; [done|].
      rewrite insert_desc_perm. constructor; [unfold ge_key; lia|done].
    + constructor; [by constructor|].
      constructor; [done|].
      eapply Forall_impl; [exact Hq|]. unfold ge_key. intros; simpl in *; lia.
Qed.

Lemma sorted_desc_sorted l : StronglySorted ge_key (sorted_desc l).
Proof.
  induction l as [|p l IH]; simpl; [constructor|by apply insert_desc_sorted].
Qed.

(** Inserting in front of nothing longer is a cons. *)
Lemma insert_desc_head p l :
  Forall (ge_key p) l → insert_desc p l = p :: l.
Proof.
  destruct 1 as [|q l Hq _]; simpl; [done|].
  unfold ge_key in Hq. by destruct (Nat.ltb_spec (key p) (key q)); [lia|].
Qed.

(** Stability, in the form used below: sorting commutes with dropping
    packages, whatever the criterion. *)
Lemma filter_insert_desc (P : WorkspacePackage → Prop) `{!∀ x, Decision (P x)} p l :
  StronglySorted ge_key l →
  filter P (insert_desc p l) =
    if decide (P p) then insert_desc p (filter P l) else filter P l.
Proof.
  induction 1 as [|q l Hl IH Hq]; simpl.
  - rewrite filter_cons, filter_nil. by destruct (decide (P p)).
  - destruct (Nat.ltb_spec (key p) (key q)) as [Hlt|Hge].
    + rewrite !(filter_cons _ q), IH.
      destruct (decide (P q)), (decide (P p)); simpl; try done.
      by destruct (Nat.ltb_spec (key p) (key q)); [|lia].
    + rewrite (filter_cons _ p).
      destruct (decide (P p)); [|done].
      symmetry. apply insert_desc_head.
      apply Forall_forall. intros r [_ Hr]%list_elem_of_filter.
      apply elem_of_cons in Hr as [->|Hr]; [done|].
      rewrite Forall_forall in Hq. specialize (Hq r Hr). unfold ge_key in *. lia.
Qed.

Lemma filter_sorted_desc (P : WorkspacePackage → Prop) `{!∀ x, Decision (P x)} l :
  filter P (sorted_desc l) = sorted_desc (filter P l).
Proof.
  induction l as [|p l IH]; simpl; [done|].
  rewrite filter_insert_desc by apply sorted_desc_sorted.
  rewrite filter_cons. destruct (decide (P p)); simpl; by rewrite IH.
Qed.

(** Packages of one key keep the order of the registry. *)
Lemma sorted_desc_stable k l :
  filter (λ p, key p = k) (sorted_desc l) = filter (λ p, key p = k) l.
Proof.
  rewrite filter_sorted_desc.
  induction l as [|p l IH]; [done|].
  rewrite filter_cons. destruct (decide (key p = k)) as [Hk|]; [|done].
  simpl. rewrite IH. apply insert_desc_head.
  apply Forall_forall. intros q [Hq _]%list_elem_of_filter.
  unfold ge_key. simpl in Hq. lia.
Qed.

(** ** The inner loop *)

(** The loop is a [find]: it stops at the first package that is not the
    virtual root and whose [source_path + "/"] starts the file path. *)
Lemma attribute_find filepath l dc :
  attribute filepath l dc =
    match find (is_match filepath) l with
    | Some p => {[ name p ]} ∪ dc
    | None => dc
    end.
Proof.
  induction l as [|q l IH]; simpl; [done|]. unfold is_match at 1.
  destruct (String.eqb (source_path q) "."); simpl; [done|].
  by destruct (String.prefix _ _).
Qed.

Lemma find_elem_of {A} (f : A → bool) l x :
  find f l = Some x → x ∈ l ∧ f x = true.
Proof.
  induction l as [|y l IH]; simpl; [done|].
  destruct (f y) eqn:Hy.
  - intros [= ->]. split; [left|done].
  - intros [? ?]%IH. split; [by right|done].
Qed.

Lemma find_none_elem_of {A} (f : A → bool) l :
  find f l = None ↔ ∀ x, x ∈ l → f x = false.
Proof.
  induction l as [|y l IH]; simpl.
  - split; [|done]. by intros _ x ?%elem_of_nil.
  - destruct (f y) eqn:Hy.
    + split; [done|]. intros H. specialize (H y (list_elem_of_here _ _)). congruence.
    + rewrite IH. split.
      * intros H x [->|?]%elem_of_cons; auto.
      * intros H x ?. apply H. by right.
Qed.

(** What one more package in front of the registry does to the choice: it
    replaces the package chosen so far only when it matches and is not
    shorter. *)
Lemma find_insert_desc f p l :
  StronglySorted ge_key l →
  find f (insert_desc p l) =
    match find f l with
    | Some q => if f p && negb (key p <? key q) then Some p else Some q
    | None => if f p then Some p else None
    end.
Proof.
  induction 1 as [|q l Hl IH Hq]; simpl; [done|].
  destruct (Nat.ltb_spec (key p) (key q)) as [Hlt|Hge]; simpl.
  - destruct (f q) eqn:Hfq.
    + destruct (Nat.ltb_spec (key p) (key q)); [|lia]. by rewrite andb_false_r.
    + apply IH.
  - destruct (f p) eqn:Hfp; simpl; [|by destruct (f q), (find f l)].
    destruct (f q) eqn:Hfq.
    + by destruct (Nat.ltb_spec (key p) (key q)); [lia|].
    + destruct (find f l) as [r|] eqn:Hr; [|done].
      apply find_elem_of in Hr as [Hr _].
      rewrite Forall_forall in Hq. specialize (Hq r Hr). unfold ge_key in Hq.
      by destruct (Nat.ltb_spec (key p) (key r)); [lia|].
Qed.

Lemma find_sorted_desc_cons f p l :
  find f (sorted_desc (p :: l)) =
    match find f (sorted_desc l) with
    | Some q => if f p && negb (key p <? key q) then Some p else Some q
    | None => if f p then Some p else None
    end.
Proof. simpl. apply find_insert_desc, sorted_desc_sorted. Qed.

(** The choice, read off the registry itself: the chosen package matches,
    no matching package is longer, and no matching package of the same
    length stands before it. *)
Lemma find_sorted_desc_Some f l p :
  find f (sorted_desc l) = Some p →
  ∃ l1 l2, l = l1 ++ p :: l2 ∧ f p = true ∧
    (∀ q, q ∈ l1 → f q = true → key q < key p) ∧
    (∀ q, q ∈ l2 → f q = true → key q ≤ key p).
Proof.
  revert p. induction l as [|a l IH]; intros p; [done|].
  rewrite find_sorted_desc_cons.
  destruct (find f (sorted_desc l)) as [q|] eqn:Hq.
  - destruct (IH q eq_refl) as (l1 & l2 & -> & Hfq & H1 & H2).
    destruct (f a) eqn:Hfa; simpl.
    + destruct (Nat.ltb_spec (key a) (key q)) as [Hlt|Hge]; simpl; intros [= <-].
      * exists (a :: l1), l2. split_and!; [done..| |done].
        intros r [->|Hr]%elem_of_cons ?; auto.
      * exists [], (l1 ++ q :: l2). split_and!; [done..| |].
        { by intros r ?%elem_of_nil. }
        intros r [Hr|[->|Hr]%elem_of_cons]%elem_of_app Hfr; [| lia |].
        -- specialize (H1 r Hr Hfr). lia.
        -- specialize (H2 r Hr Hfr). lia.
    + intros [= <-]. exists (a :: l1), l2. split_and!; [done..| |done].
      intros r [->|Hr]%elem_of_cons ?; [congruence|auto].
  - destruct (f a) eqn:Hfa; [|done]. intros [= <-].
    exists [], l. split_and!; [done..| |].
    { by intros r ?%elem_of_nil. }
    intros r Hr Hfr.
    assert (r ∈ sorted_desc l) as Hr' by by rewrite sorted_desc_perm.
    rewrite find_none_elem_of in Hq. specialize (Hq r Hr'). congruence.
Qed.

Lemma find_sorted_desc_None f l :
  find f (sorted_desc l) = None ↔ ∀ q, q ∈ l → f q = false.
Proof.
  rewrite find_none_elem_of. by setoid_rewrite sorted_desc_perm.
Qed.

(** Matching packages have nested source paths. *)
Lemma is_match_nested filepath p q :
  is_match filepath p = true → is_match filepath q = true →
  key q ≤ key p → String.prefix (source_path q) (source_path p) = true.
Proof.
  unfold is_match, key.
  intros [_ Hp]%andb_true_iff [_ Hq]%andb_true_iff Hlen.
  assert (String.prefix (source_path q) (source_path q +:+ "/") = true) as H1
    by apply string_prefix_app.
  pose proof (string_prefix_trans _ _ _ H1 Hq) as H2.
  assert (String.prefix (source_path p) (source_path p +:+ "/") = true) as H3
    by apply string_prefix_app.
  pose proof (string_prefix_trans _ _ _ H3 Hp) as H4.
  by apply (string_prefix_nested _ _ filepath).
Qed.

(** Dropping the virtual root packages from the list changes nothing. *)
Lemma attribute_filter_root filepath l dc :
  attribute filepath (filter (λ p, source_path p ≠ ".") l) dc =
  attribute filepath l dc.
Proof.
  induction l as [|q l IH]; [done|].
  rewrite filter_cons. simpl.
  destruct (String.eqb_spec (source_path q) ".") as [Heq|Hne].
  - by rewrite decide_False by (by intros ?).
  - rewrite decide_True by done. simpl.
    destruct (String.eqb_spec (source_path q) "."); [done|].
    by destruct (String.prefix _ _).
Qed.

Lemma values_filter (P : WorkspacePackage → Prop) `{!∀ x, Decision (P x)}
    (packages : Packages) :
  values (filter (λ kv, P kv.2) packages) = filter P (values packages).
Proof.
  unfold values. induction packages as [|[k v] l IH]; [done|].
  rewrite filter_cons. cbn [map snd]. rewrite filter_cons.
  destruct (decide (P v)); cbn [map snd]; by rewrite IH.
Qed.

(** ** The outer loop *)

Section scan.
Context (rt dt : gset string) (sorted : list WorkspacePackage).

Lemma step_eq st filepath :
  step rt dt sorted st filepath =
    (attribute_unless_trigger rt dt sorted st.1 filepath,
     st.2 || is_trigger rt dt filepath).
Proof.
  unfold step, attribute_unless_trigger, is_trigger.
  destruct (in_root_triggers _ _); simpl; [by rewrite orb_true_r|].
  destruct (any_startswith _ _); simpl; [by rewrite orb_true_r|].
  by rewrite orb_false_r.
Qed.

(** The two components of the state evolve independently. *)
Lemma scan_eq files dc b :
  scan rt dt sorted files (dc, b) =
    (foldl (attribute_unless_trigger rt dt sorted) dc files,
     b || existsb (is_trigger rt dt) files).
Proof.
  revert dc b. induction files as [|f files IH]; intros dc b; simpl.
  - by rewrite orb_false_r.
  - rewrite step_eq. simpl. rewrite IH. by rewrite orb_assoc.
Qed.

Lemma foldl_attribute_elem_of n dc files :
  n ∈ foldl (attribute_unless_trigger rt dt sorted) dc files →
  n ∈ dc ∨ ∃ p filepath, p ∈ sorted ∧ filepath ∈ files ∧
    is_trigger rt dt filepath = false ∧ is_match filepath p = true ∧ name p = n.
Proof.
  revert dc. induction files as [|f files IH]; intros dc; simpl; [by left|].
  intros [Hn|(p & g & ? & ? & ? & ? & ?)]%IH.
  - unfold attribute_unless_trigger in Hn.
    destruct (is_trigger rt dt f) eqn:Hf; [by left|].
    rewrite attribute_find in Hn.
    destruct (find (is_match f) sorted) as [p|] eqn:Hp; [|by left].
    apply find_elem_of in Hp as [? ?].
    apply elem_of_union in Hn as [->%elem_of_singleton|?]; [|by left].
    right. exists p, f. split_and!; [done| left |done..].
  - right. exists p, g. split_and!; [done| by right |done..].
Qed.
End scan.

Lemma any_startswith_true filepath dir_triggers :
  any_startswith filepath dir_triggers = true ↔
  ∃ trigger, trigger ∈ dir_triggers ∧ String.prefix trigger filepath = true.
Proof.
  unfold any_startswith. rewrite existsb_exists.
  by setoid_rewrite <-list_elem_of_In; setoid_rewrite elem_of_elements.
Qed.

Lemma any_startswith_empty filepath : any_startswith filepath ∅ = false.
Proof. unfold any_startswith. by rewrite elements_empty. Qed.

Lemma in_root_triggers_empty filepath : in_root_triggers filepath ∅ = false.
Proof. unfold in_root_triggers. apply bool_decide_eq_false. set_solver. Qed.

(** ** The flag *)

Lemma is_trigger_true rt dt filepath :
  is_trigger rt dt filepath = true ↔
  filepath ∈ rt ∨ ∃ trigger, trigger ∈ dt ∧ String.prefix trigger filepath = true.
Proof.
  unfold is_trigger, in_root_triggers.
  by rewrite orb_true_iff, bool_decide_eq_true, any_startswith_true.
Qed.

Lemma existsb_is_trigger rt dt files :
  existsb (is_trigger rt dt) files = true ↔
  ∃ filepath, filepath ∈ files ∧ is_trigger rt dt filepath = true.
Proof.
  rewrite existsb_exists. by setoid_rewrite <-list_elem_of_In.
Qed.

Lemma map_files_test_all files (packages : Packages) root_triggers dir_triggers :
  (map_files_to_packages files packages root_triggers dir_triggers).2 =
  existsb (is_trigger (default DEFAULT_ROOT_TRIGGERS root_triggers)
             (default DEFAULT_DIR_TRIGGERS dir_triggers)) files.
Proof. unfold map_files_to_packages. by rewrite scan_eq. Qed.

End MapperFacts.

(** * The mapper's properties *)

Import Mapper MapperFacts.

(** C1. Longest-prefix precedence. The registry is scanned longest
    [source_path] first (a stable, descending sort of its values); the
    file goes to the first package of that order which is not the virtual
    root and whose [source_path + "/"] starts the file path. Read off the
    registry: the chosen package matches, no matching package has a longer
    [source_path] (every matching one is an ancestor: its path is a prefix
    of the chosen one's), and none of the same length stands before it.
    The files that are no triggers are attributed this way, one by one.
    With the registry [{"a": "pkg/a", "a/sub": "pkg/a/sub"}], in either
    order, the file [pkg/a/sub/file.py] goes to ["a/sub"] and not to ["a"];
    and one file adds at most one name. *)
Theorem C1_longest_prefix_precedence :
  (∀ packages : Packages,
     sorted_packages packages ≡ₚ values packages ∧
     StronglySorted (λ p q, String.length (source_path q) ≤ String.length (source_path p))
       (sorted_packages packages) ∧
     ∀ k, filter (λ p, String.length (source_path p) = k) (sorted_packages packages) =
          filter (λ p, String.length (source_path p) = k) (values packages)) ∧
  (∀ (packages : Packages) filepath directly_changed,
     attribute filepath (sorted_packages packages) directly_changed =
       match find (λ p, negb (String.eqb (source_path p) ".") &&
                        String.prefix (source_path p +:+ "/") filepath)
                  (sorted_packages packages) with
       | Some p => {[ name p ]} ∪ directly_changed
       | None => directly_changed
       end) ∧
  (∀ (packages : Packages) filepath directly_changed,
     (∃ l1 p l2,
        values packages = l1 ++ p :: l2 ∧
        source_path p ≠ "." ∧
        String.prefix (source_path p +:+ "/") filepath = true ∧
        Forall (λ q, String.length (source_path q) < String.length (source_path p))
          (filter (λ q, is_match filepath q = true) l1) ∧
        Forall (λ q, String.prefix (source_path q) (source_path p) = true)
          (filter (λ q, is_match filepath q = true) (l1 ++ l2)) ∧
        attribute filepath (sorted_packages packages) directly_changed =
          {[ name p ]} ∪ directly_changed) ∨
     (filter (λ q, is_match filepath q = true) (values packages) = [] ∧
      attribute filepath (sorted_packages packages) directly_changed =
        directly_changed)) ∧
  (map_files_to_packages ["pkg/a/sub/file.py"]
     [("a", mkPackage "a" "pkg/a"); ("a/sub", mkPackage "a/sub" "pkg/a/sub")]
     None None = ({[ "a/sub" ]}, false) ∧
   map_files_to_packages ["pkg/a/sub/file.py"]
     [("a/sub", mkPackage "a/sub" "pkg/a/sub"); ("a", mkPackage "a" "pkg/a")]
     None None = ({[ "a/sub" ]}, false) ∧
   "a" ∉ ({[ "a/sub" ]} : gset string)) ∧
  (∀ changed_files (packages : Packages) root_triggers dir_triggers,
     (map_files_to_packages changed_files packages root_triggers dir_triggers).1 =
       foldl (λ directly_changed filepath,
                if is_trigger (default DEFAULT_ROOT_TRIGGERS root_triggers)
                     (default DEFAULT_DIR_TRIGGERS dir_triggers) filepath
                then directly_changed
                else attribute filepath (sorted_packages packages) directly_changed)
             ∅ changed_files) ∧
  (∀ filepath (packages : Packages) root_triggers dir_triggers,
     size (map_files_to_packages [filepath] packages root_triggers dir_triggers).1 ≤ 1).
Proof.
  split; [|split; [|split; [|split; [|split]]]].
  - intros packages. split_and!.
    + apply sorted_desc_perm.
    + apply sorted_desc_sorted.
    + intros k. apply sorted_desc_stable.
  - intros. apply attribute_find.
  - intros packages filepath dc. rewrite attribute_find. unfold sorted_packages.
    destruct (find _ _) as [p|] eqn:Hfind.
    + left. apply find_sorted_desc_Some in Hfind as (l1 & l2 & Hl & Hp & H1 & H2).
      exists l1, p, l2. split_and!; try done.
      * apply andb_true_iff in Hp as [Hp _].
        destruct (String.eqb_spec (source_path p) "."); done.
      * by apply andb_true_iff in Hp as [_ Hp].
      * apply Forall_forall. intros q [Hm Hq]%list_elem_of_filter. by apply H1.
      * apply Forall_forall. intros q [Hm Hq]%list_elem_of_filter.
        apply (is_match_nested filepath); try done.
        apply elem_of_app in Hq as [Hq|Hq].
        -- specialize (H1 q Hq Hm). lia.
        -- by apply H2.
    + right. split; [|done].
      apply elem_of_nil_inv. intros q [Hm Hq]%list_elem_of_filter.
      rewrite find_sorted_desc_None in Hfind. specialize (Hfind q Hq). congruence.
  - split; [by vm_compute|]. split; [by vm_compute|]. set_solver.
  - intros files packages rt dt. unfold map_files_to_packages. by rewrite scan_eq.
  - intros filepath packages rt dt. unfold map_files_to_packages.
    rewrite scan_eq. cbn [fst foldl]. unfold attribute_unless_trigger.
    destruct (is_trigger _ _ _).
    + rewrite size_empty. lia.
    + rewrite attribute_find. destruct (find _ _).
      * rewrite union_empty_r_L, size_singleton. lia.
      * rewrite size_empty. lia.
Qed.

(** C2. Trigger exclusivity. A changed file that is a root trigger, or
    that starts with a directory trigger, sets [test_all] and adds nothing
    to the directly-changed set, whatever package paths it starts with: the
    result is the one without that file, with [test_all] set, so the files
    after it are still scanned. One iteration on such a file only sets the
    flag; for a root trigger that is decided before the directory triggers
    are looked at, whatever they are. *)
Theorem C2_trigger_exclusivity (before after : list string) (filepath : string)
    (packages : Packages) (root_triggers dir_triggers : option (gset string)) :
  let rt := default DEFAULT_ROOT_TRIGGERS root_triggers in
  let dt := default DEFAULT_DIR_TRIGGERS dir_triggers in
  filepath ∈ rt ∨ (∃ trigger, trigger ∈ dt ∧ String.prefix trigger filepath = true) →
  map_files_to_packages (before ++ filepath :: after) packages root_triggers dir_triggers =
    ((map_files_to_packages (before ++ after) packages root_triggers dir_triggers).1, true) ∧
  (∀ sorted st, step rt dt sorted st filepath = (st.1, true)) ∧
  (filepath ∈ rt → ∀ dt' sorted st, step rt dt' sorted st filepath = (st.1, true)).
Proof.
  intros rt dt Htrig.
  assert (is_trigger rt dt filepath = true) as Hf.
  { unfold is_trigger. apply orb_true_iff. destruct Htrig as [?|?].
    - left. by apply bool_decide_eq_true.
    - right. by apply any_startswith_true. }
  split_and!.
  - unfold map_files_to_packages. fold rt dt. rewrite !scan_eq. cbn [fst].
    rewrite !foldl_app. cbn [foldl]. unfold attribute_unless_trigger at 2.
    rewrite Hf. f_equal.
    rewrite existsb_app. simpl. rewrite Hf. by rewrite orb_true_r.
  - intros sorted st. rewrite step_eq. unfold attribute_unless_trigger.
    by rewrite Hf, orb_true_r.
  - intros Hin dt' sorted st. unfold step, in_root_triggers.
    by rewrite bool_decide_eq_true_2.
Qed.

(** A workflow file under a package rooted at [.github]: it starts with
    the package's path and with the default directory trigger; the file
    after it is still attributed. *)
Lemma C2_trigger_exclusivity_witness :
  map_files_to_packages
    (["docs/x.md"] ++ ".github/workflows/ci.yml" :: ["packages/core/a.py"])
    registry_with_github None None = ({[ "core" ]}, true) ∧
  map_files_to_packages [".github/workflows/ci.yml"] registry_with_github None (Some ∅) =
    ({[ "ci" ]}, false).
Proof.
  split; [|by vm_compute].
  destruct (C2_trigger_exclusivity ["docs/x.md"] ["packages/core/a.py"]
              ".github/workflows/ci.yml" registry_with_github None None) as (-> & _).
  - right. exists ".github/". split; [|reflexivity].
    apply elem_of_singleton. reflexivity.
  - by vm_compute.
Defined.

(** C6. The scenario with one trigger and two attributed files. *)
Theorem C6_mixed_scenario :
  map_files_to_packages
    ["pyproject.toml"; "packages/core/src/x.py"; "packages/web/README.md"]
    [ ("core", mkPackage "core" "packages/core");
      ("web", mkPackage "web" "packages/web") ]
    None None = ({[ "core"; "web" ]}, true).
Proof. by vm_compute. Qed.

(** C7. The virtual root package is never a match target: the result is
    the one for the registry without the packages whose [source_path] is
    ["."], and a registry of virtual roots only attributes nothing, not
    even a file whose path starts with ["./"]. *)
Theorem C7_virtual_root_never_attributed :
  (∀ changed_files (packages : Packages) root_triggers dir_triggers,
     map_files_to_packages changed_files packages root_triggers dir_triggers =
     map_files_to_packages changed_files
       (filter (λ kv, source_path kv.2 ≠ ".") packages) root_triggers dir_triggers) ∧
  (∀ changed_files (names : list string) root_triggers dir_triggers,
     (map_files_to_packages changed_files
        ((λ n, (n, mkPackage n ".")) <$> names) root_triggers dir_triggers).1 = ∅) ∧
  map_files_to_packages ["./x.py"; "x.py"; "."; "./"]
    [("root", mkPackage "root" ".")] None None = (∅, false).
Proof.
  assert (∀ changed_files (packages : Packages) root_triggers dir_triggers,
     map_files_to_packages changed_files packages root_triggers dir_triggers =
     map_files_to_packages changed_files
       (filter (λ kv, source_path kv.2 ≠ ".") packages) root_triggers dir_triggers) as Hfilter.
  { intros files packages rt dt. unfold map_files_to_packages, sorted_packages.
    pose proof (values_filter (λ p, source_path p ≠ ".") packages) as Hv.
    rewrite Hv, <-filter_sorted_desc, !scan_eq. f_equal.
    generalize (∅ : gset string).
    induction files as [|f files IH]; intros dc; [done|]. simpl. rewrite <-IH.
    f_equal. unfold attribute_unless_trigger.
    destruct (is_trigger _ _ _); [done|]. by rewrite attribute_filter_root. }
  split; [exact Hfilter|]. split; [|by vm_compute].
  intros files names rt dt. rewrite Hfilter.
  replace (filter _ _) with (@nil (string * WorkspacePackage)).
  - unfold map_files_to_packages. rewrite scan_eq. cbn [fst].
    generalize (default DEFAULT_ROOT_TRIGGERS rt) (default DEFAULT_DIR_TRIGGERS dt).
    intros rt' dt'. induction files as [|f files IH]; [done|]. simpl.
    unfold attribute_unless_trigger at 2. simpl. by destruct (is_trigger _ _ _).
  - induction names as [|n names IH]; [done|].
    rewrite fmap_cons, filter_cons. simpl. exact IH.
Qed.

(** C8. Defaults stand for an omitted trigger set only. Omitting a set is
    passing the constant, [{"pyproject.toml", "uv.lock"}] or
    [{".github/"}]; an explicit empty set matches no file, and with both
    sets empty [test_all] stays false. Each category fires on its own:
    with the root triggers omitted, [test_all] is set exactly when a
    changed file is [pyproject.toml] or [uv.lock] or starts with one of
    the directory triggers in force; with the directory triggers omitted,
    exactly when a changed file starts with [.github/] or is one of the
    root triggers in force; an explicit empty set leaves the other
    category alone in deciding. *)
Theorem C8_trigger_defaults :
  DEFAULT_ROOT_TRIGGERS = {[ "pyproject.toml"; "uv.lock" ]} ∧
  DEFAULT_DIR_TRIGGERS = {[ ".github/" ]} ∧
  (∀ changed_files (packages : Packages) dir_triggers,
     map_files_to_packages changed_files packages None dir_triggers =
     map_files_to_packages changed_files packages
       (Some {[ "pyproject.toml"; "uv.lock" ]}) dir_triggers) ∧
  (∀ changed_files (packages : Packages) root_triggers,
     map_files_to_packages changed_files packages root_triggers None =
     map_files_to_packages changed_files packages root_triggers (Some {[ ".github/" ]})) ∧
  (∀ filepath, in_root_triggers filepath ∅ = false ∧ any_startswith filepath ∅ = false) ∧
  (∀ changed_files (packages : Packages),
     (map_files_to_packages changed_files packages (Some ∅) (Some ∅)).2 = false) ∧
  (map_files_to_packages ["pyproject.toml"; ".github/x"] [] None None = (∅, true) ∧
   map_files_to_packages ["pyproject.toml"] [] (Some ∅) None = (∅, false) ∧
   map_files_to_packages [".github/x"] [] None (Some ∅) = (∅, false)) ∧
  (∀ changed_files (packages : Packages) dir_triggers,
     (map_files_to_packages changed_files packages None dir_triggers).2 = true ↔
     ∃ filepath, filepath ∈ changed_files ∧
       (filepath = "pyproject.toml" ∨ filepath = "uv.lock" ∨
        ∃ trigger, trigger ∈ default DEFAULT_DIR_TRIGGERS dir_triggers ∧
                   String.prefix trigger filepath = true)) ∧
  (∀ changed_files (packages : Packages) root_triggers,
     (map_files_to_packages changed_files packages root_triggers None).2 = true ↔
     ∃ filepath, filepath ∈ changed_files ∧
       (filepath ∈ default DEFAULT_ROOT_TRIGGERS root_triggers ∨
        String.prefix ".github/" filepath = true)) ∧
  (∀ changed_files (packages : Packages) dir_triggers,
     (map_files_to_packages changed_files packages (Some ∅) dir_triggers).2 = true ↔
     ∃ filepath, filepath ∈ changed_files ∧
       ∃ trigger, trigger ∈ default DEFAULT_DIR_TRIGGERS dir_triggers ∧
                  String.prefix trigger filepath = true) ∧
  (∀ changed_files (packages : Packages) root_triggers,
     (map_files_to_packages changed_files packages root_triggers (Some ∅)).2 = true ↔
     ∃ filepath, filepath ∈ changed_files ∧
       filepath ∈ default DEFAULT_ROOT_TRIGGERS root_triggers) ∧
  (∀ (packages : Packages),
     (map_files_to_packages ["pyproject.toml"] packages None None).2 = true ∧
     (map_files_to_packages ["uv.lock"] packages None None).2 = true ∧
     (map_files_to_packages [".github/workflows/ci.yml"] packages None None).2 = true ∧
     (map_files_to_packages ["pyproject.toml"] packages None (Some ∅)).2 = true ∧
     (map_files_to_packages ["uv.lock"] packages None (Some ∅)).2 = true ∧
     (map_files_to_packages [".github/workflows/ci.yml"] packages (Some ∅) None).2 = true ∧
     (map_files_to_packages ["packages/core/pyproject.toml"; ".github"; "src/uv.lock"]
        packages None None).2 = false).
Proof.
  assert (∀ changed_files (packages : Packages) root_triggers dir_triggers,
     (map_files_to_packages changed_files packages root_triggers dir_triggers).2 = true ↔
     ∃ filepath, filepath ∈ changed_files ∧
       (filepath ∈ default DEFAULT_ROOT_TRIGGERS root_triggers ∨
        ∃ trigger, trigger ∈ default DEFAULT_DIR_TRIGGERS dir_triggers ∧
                   String.prefix trigger filepath = true)) as Hgen.
  { intros files packages rt dt.
    rewrite map_files_test_all, existsb_is_trigger.
    by setoid_rewrite is_trigger_true. }
  assert (∀ f : string, f ∈ DEFAULT_ROOT_TRIGGERS ↔ f = "pyproject.toml" ∨ f = "uv.lock")
    as Hroot.
  { intros f. unfold DEFAULT_ROOT_TRIGGERS.
    by rewrite elem_of_union, !elem_of_singleton. }
  assert (∀ f : string,
            (∃ t, t ∈ DEFAULT_DIR_TRIGGERS ∧ String.prefix t f = true) ↔
            String.prefix ".github/" f = true) as Hdir.
  { intros f. unfold DEFAULT_DIR_TRIGGERS. split.
    - by intros (t & ->%elem_of_singleton & ?).
    - intros ?. exists ".github/". split; [by apply elem_of_singleton|done]. }
  split; [done|]. split; [done|]. split; [done|]. split; [done|].
  split; [|split; [|split; [|split; [|split; [|split; [|split]]]]]].
  - intros f. split; [apply in_root_triggers_empty|apply any_startswith_empty].
  - intros files packages. unfold map_files_to_packages. rewrite scan_eq. simpl.
    induction files as [|f files IH]; [done|]. simpl. rewrite IH.
    unfold is_trigger. by rewrite in_root_triggers_empty, any_startswith_empty.
  - split; [by vm_compute|]. split; by vm_compute.
  - intros files packages dt. rewrite Hgen. cbn [default].
    split; intros (f & Hf & H); exists f; (split; [done|]).
    + destruct H as [[?|?]%Hroot|?]; auto.
    + destruct H as [?|[?|?]]; [left; apply Hroot; by left
                               |left; apply Hroot; by right|by right].
  - intros files packages rt. rewrite Hgen. cbn [default].
    split; intros (f & Hf & H); exists f; (split; [done|]).
    + destruct H as [?|?%Hdir]; auto.
    + destruct H as [?|?]; [by left|right; by apply Hdir].
  - intros files packages dt. rewrite Hgen. cbn [default].
    split; intros (f & Hf & H); exists f; (split; [done|]).
    + destruct H as [?%not_elem_of_empty|?]; done.
    + by right.
  - intros files packages rt. rewrite Hgen. cbn [default].
    split; intros (f & Hf & H); exists f; (split; [done|]).
    + destruct H as [?|(t & ?%not_elem_of_empty & _)]; done.
    + by left.
  - intros packages. rewrite !map_files_test_all. by vm_compute.
Qed.

(** C9. An empty string among the directory triggers swallows every file:
    whatever the registry and the root triggers, a non-empty list of
    changed files gives [test_all] and no directly-changed package. *)
Theorem C9_empty_dir_trigger (changed_files : list string) (packages : Packages)
    (root_triggers : option (gset string)) (dir_triggers : gset string) :
  "" ∈ dir_triggers →
  changed_files ≠ [] →
  map_files_to_packages changed_files packages root_triggers (Some dir_triggers) =
    (∅, true).
Proof.
  intros Hin Hne. unfold map_files_to_packages. rewrite scan_eq. simpl.
  assert (∀ f, is_trigger (default DEFAULT_ROOT_TRIGGERS root_triggers) dir_triggers f = true)
    as Hall.
  { intros f. unfold is_trigger. apply orb_true_iff. right.
    apply any_startswith_true. exists "". split; [done|apply string_prefix_nil]. }
  f_equal.
  - generalize (∅ : gset string). clear Hne.
    induction changed_files as [|f files IH]; intros dc; [done|]. simpl.
    unfold attribute_unless_trigger at 2. rewrite Hall. apply IH.
  - destruct changed_files as [|f files]; [done|]. simpl. by rewrite Hall.
Qed.

Lemma C9_empty_dir_trigger_witness :
  map_files_to_packages ["packages/core/a.py"; "README.md"]
    [("core", mkPackage "core" "packages/core")] (Some ∅) (Some {[ ""; "docs/" ]}) =
    (∅, true).
Proof.
  apply C9_empty_dir_trigger.
  - apply elem_of_union. left. apply elem_of_singleton. reflexivity.
  - discriminate.
Defined.

(** C10. Soundness of the directly-changed set: each of its names is the
    name of a package of the registry that is not the virtual root and
    whose [source_path + "/"] starts one of the changed files; no changed
    file gives the empty set and no [test_all]. *)
Theorem C10_direct_set_sound :
  (∀ changed_files (packages : Packages) root_triggers dir_triggers n,
     n ∈ (map_files_to_packages changed_files packages root_triggers dir_triggers).1 →
     ∃ p filepath,
       p ∈ values packages ∧ name p = n ∧ source_path p ≠ "." ∧
       filepath ∈ changed_files ∧
       String.prefix (source_path p +:+ "/") filepath = true) ∧
  (∀ (packages : Packages) root_triggers dir_triggers,
     map_files_to_packages [] packages root_triggers dir_triggers = (∅, false)).
Proof.
  split; [|done].
  intros files packages rt dt n. unfold map_files_to_packages. rewrite scan_eq. cbn [fst].
  intros [Hn|(p & f & Hp & Hf & _ & Hm & Hname)]%foldl_attribute_elem_of.
  { set_solver. }
  exists p, f. unfold sorted_packages in Hp. rewrite sorted_desc_perm in Hp.
  apply andb_true_iff in Hm as [Hroot Hpre].
  split_and!; try done.
  destruct (String.eqb_spec (source_path p) "."); done.
Qed.

Lemma C10_direct_set_sound_witness :
  ∃ p filepath,
    p ∈ [mkPackage "core" "packages/core"; mkPackage "web" "packages/web"] ∧
    name p = "web" ∧ source_path p ≠ "." ∧
    filepath ∈ ["pyproject.toml"; "packages/web/README.md"] ∧
    String.prefix (source_path p +:+ "/") filepath = true.
Proof.
  apply (proj1 C10_direct_set_sound
           ["pyproject.toml"; "packages/web/README.md"]
           [ ("core", mkPackage "core" "packages/core");
             ("web", mkPackage "web" "packages/web") ] None None "web").
  vm_compute. reflexivity.
Defined.

(** * Facts about the relativizer *)

Module RelativizerFacts.
Import Relativizer.

Lemma relative_to_app base rel : relative_to (base ++ rel) base = Some rel.
Proof.
  induction base as [|b base IH]; simpl; [done|]. by rewrite decide_True.
Qed.

Lemma relative_to_Some p base rel : relative_to p base = Some rel → p = base ++ rel.
Proof.
  revert p. induction base as [|b base IH]; intros p; simpl; [by intros [= ->]|].
  destruct p as [|c p]; [done|].
  destruct (decide (b = c)) as [->|]; [|done]. intros ?%IH. by f_equal.
Qed.

Lemma relativize_loop_omap prefix files result :
  relativize_loop prefix files result = result ++ omap (relativize_one prefix) files.
Proof.
  revert result. induction files as [|f files IH]; intros result; simpl.
  - by rewrite app_nil_r.
  - unfold relativize_one in *.
    destruct (String.prefix _ f); [by rewrite IH, <-app_assoc|].
    destruct (String.eqb f prefix); [by rewrite IH, <-app_assoc|]. apply IH.
Qed.

Lemma relativize_one_under prefix rest :
  relativize_one prefix (prefix +:+ "/" +:+ rest) = Some rest.
Proof.
  unfold relativize_one. rewrite <-string_app_assoc, string_prefix_app.
  by rewrite slice_from_app.
Qed.

Lemma prefix_longer_false s t :
  String.length t < String.length s → String.prefix s t = false.
Proof.
  intros Hlen. destruct (String.prefix s t) eqn:H; [|done].
  apply string_prefix_length in H. lia.
Qed.

Lemma relativize_one_root prefix : relativize_one prefix prefix = Some ".".
Proof.
  unfold relativize_one. rewrite prefix_longer_false.
  - by rewrite String.eqb_refl.
  - rewrite string_length_app. simpl. lia.
Qed.

Lemma relativize_one_Some prefix f o :
  relativize_one prefix f = Some o ↔
  f = prefix +:+ "/" +:+ o ∨ (f = prefix ∧ o = ".").
Proof.
  split.
  - unfold relativize_one. destruct (String.prefix _ f) eqn:Hpre.
    + apply string_prefix_inv in Hpre as [r ->]. rewrite slice_from_app.
      intros [= ->]. left. apply string_app_assoc.
    + destruct (String.eqb_spec f prefix) as [->|]; [|done].
      intros [= <-]. by right.
  - intros [->|[-> ->]]; [apply relativize_one_under|apply relativize_one_root].
Qed.

Lemma relativize_one_None prefix f :
  relativize_one prefix f = None ↔
  f ≠ prefix ∧ ∀ rest, f ≠ prefix +:+ "/" +:+ rest.
Proof.
  split.
  - intros Hnone. split.
    + intros ->. by rewrite relativize_one_root in Hnone.
    + intros rest ->. by rewrite relativize_one_under in Hnone.
  - intros [H1 H2]. destruct (relativize_one prefix f) as [o|] eqn:Ho; [|done].
    apply relativize_one_Some in Ho as [->|[-> _]]; [by destruct (H2 o)|done].
Qed.

Lemma omap_sublist_Forall2 {A B} (g : A → option B) (l : list A) :
  ∃ kept, kept `sublist_of` l ∧ Forall2 (λ x y, g x = Some y) kept (omap g l).
Proof.
  induction l as [|x l (kept & Hsub & Hall)]; simpl.
  - exists []. by split.
  - destruct (g x) as [y|] eqn:Hy.
    + exists (x :: kept). split; [by constructor|by constructor].
    + exists kept. split; [by constructor|done].
Qed.

Section resolved.
Context (resolve : Path → Path) (git_root workspace_root : Path).

Lemma relativize_same_root files :
resolve workspace_root = resolve git_root →
relativize_to_workspace resolve files git_root workspace_root = files.
Proof. intros Heq. unfold relativize_to_workspace. by rewrite decide_True. Qed.

Lemma relativize_descendant rel files :
rel ≠ [] → resolve workspace_root = resolve git_root ++ rel →
relativize_to_workspace resolve files git_root workspace_root =
  omap (relativize_one (path_str rel)) files.
Proof.
intros Hrel Heq. unfold relativize_to_workspace. rewrite Heq.
rewrite decide_False.
- by rewrite relative_to_app, relativize_loop_omap.
- intros H. rewrite <-(app_nil_r (resolve git_root)) in H at 2.
  by apply app_inv_head in H.
Qed.

(** The three ways out of the function. *)
Lemma relativize_cases files :
(resolve workspace_root = resolve git_root ∧
 relativize_to_workspace resolve files git_root workspace_root = files) ∨
(∃ rel, rel ≠ [] ∧ resolve workspace_root = resolve git_root ++ rel ∧
   relativize_to_workspace resolve files git_root workspace_root =
     omap (relativize_one (path_str rel)) files) ∨
(relative_to (resolve workspace_root) (resolve git_root) = None ∧
 relativize_to_workspace resolve files git_root workspace_root = []).
Proof.
destruct (decide (resolve workspace_root = resolve git_root)) as [Heq|Hne].
{ left. split; [done|by apply relativize_same_root]. }
right. destruct (relative_to (resolve workspace_root) (resolve git_root)) as [rel|] eqn:Hrel.
- left. apply relative_to_Some in Hrel. exists rel.
  assert (rel ≠ []) as Hnil.
  { intros ->. by rewrite app_nil_r in Hrel. }
  split_and!; [done..|]. by apply relativize_descendant.
- right. split; [done|]. unfold relativize_to_workspace.
  rewrite decide_False by done. by rewrite Hrel.
Qed.

End resolved.

End RelativizerFacts.

(** * The relativizer's properties *)

Import Relativizer RelativizerFacts.

(** C3, as the code has it. Each returned path comes from one changed
    file, in the order of the input: it is that file's path itself when
    the two roots resolve to the same directory, and otherwise what follows
    the first [prefix + "/"] of it, or ["."] for the prefix itself, where
    [prefix] is the workspace root relative to the repository root. The
    prefix is removed once, at the front; a returned path begins with
    ["/"] only if a changed file begins with ["/"] or holds ["//"]. *)
Theorem C3_relativizer_postcondition :
  (∀ resolve changed_files git_root workspace_root,
     ∃ kept, kept `sublist_of` changed_files ∧
       Forall2 (relativized resolve git_root workspace_root) kept
         (relativize_to_workspace resolve changed_files git_root workspace_root)) ∧
  (∀ resolve changed_files git_root workspace_root,
     Forall (λ f, String.prefix "/" f = false ∧ contains "//" f = false) changed_files →
     Forall (λ o, String.prefix "/" o = false)
       (relativize_to_workspace resolve changed_files git_root workspace_root)).
Proof.
  assert (∀ resolve changed_files git_root workspace_root,
     ∃ kept, kept `sublist_of` changed_files ∧
       Forall2 (relativized resolve git_root workspace_root) kept
         (relativize_to_workspace resolve changed_files git_root workspace_root)) as HA.
  { intros resolve files git ws.
    destruct (relativize_cases resolve git ws files)
      as [[Heq ->]|[(rel & Hrel & Heq & ->)|[_ ->]]].
    - exists files. split; [done|].
      apply Forall2_same_length_lookup_2; [done|].
      intros i f o Hf Ho. left. split; [done|congruence].
    - destruct (omap_sublist_Forall2 (relativize_one (path_str rel)) files)
        as (kept & Hsub & Hall).
      exists kept. split; [done|].
      eapply Forall2_impl; [exact Hall|].
      intros f o Ho. right. exists rel. split_and!; [done..|].
      by apply relativize_one_Some.
    - exists []. split; [apply sublist_nil_l|constructor]. }
  split; [exact HA|].
  intros resolve files git ws Hfiles.
  destruct (HA resolve files git ws) as (kept & Hsub & Hall).
  assert (Forall (λ f, String.prefix "/" f = false ∧ contains "//" f = false) kept) as Hkept.
  { apply Forall_forall. intros f Hf. rewrite Forall_forall in Hfiles.
    apply Hfiles. by eapply sublist_subseteq. }
  clear Hsub Hfiles. induction Hall as [|f o kept outs Hfo Hall IH]; [constructor|].
  apply Forall_cons in Hkept as [[Hslash Hdouble] Hkept].
  constructor; [|by apply IH].
  destruct Hfo as [[_ ->]|(rel & _ & _ & [->|[_ ->]])]; [done| |done].
  destruct o as [|c o]; [done|].
  rewrite string_prefix_cons, string_prefix_nil, andb_true_r.
  apply bool_decide_eq_false. intros <-.
  change (path_str rel +:+ "/" +:+ String "/" o)
    with (path_str rel +:+ "//" +:+ o) in Hdouble.
  by rewrite contains_app in Hdouble.
Qed.

Lemma C3_relativizer_postcondition_witness :
  Forall (λ o, String.prefix "/" o = false)
    (relativize_to_workspace id ["ws/pkg/a.py"; "docs/b.md"; "ws"] ["repo"] ["repo"; "ws"]).
Proof.
  apply (proj2 C3_relativizer_postcondition).
  repeat constructor.
Defined.

(** A workspace [repo/ws] that holds a directory [ws]: the returned path
    begins with the stripped prefix again; and a path with a doubled
    separator: the returned path begins with ["/"]. *)
Lemma C3_relativizer_postcondition_counterexample :
  relativize_to_workspace id ["ws/ws/x.py"; "ws//y.py"] ["repo"] ["repo"; "ws"] =
    ["ws/x.py"; "/y.py"] ∧
  relative_to ["repo"; "ws"] ["repo"] = Some ["ws"] ∧
  String.prefix (path_str ["ws"] +:+ "/") "ws/x.py" = true ∧
  String.prefix "/" "/y.py" = true.
Proof. by vm_compute. Qed.

(** C4. The stripping rule, for a workspace root that is a proper
    descendant of the repository root, [prefix] being the one relative to
    the other: [prefix + "/" + rest] gives [rest], [prefix] itself gives
    ["."], any other file is dropped, each file is treated on its own, and
    the result is no longer than the input. With equal roots the input is
    returned as it is. *)
Theorem C4_stripping_rule :
  (∀ resolve (git_root workspace_root rel : Path),
     rel ≠ [] →
     resolve workspace_root = resolve git_root ++ rel →
     (∀ rest,
        relativize_to_workspace resolve [path_str rel +:+ "/" +:+ rest]
          git_root workspace_root = [rest]) ∧
     relativize_to_workspace resolve [path_str rel] git_root workspace_root = ["."] ∧
     (∀ f, f ≠ path_str rel → (∀ rest, f ≠ path_str rel +:+ "/" +:+ rest) →
        relativize_to_workspace resolve [f] git_root workspace_root = []) ∧
     (∀ files1 files2,
        relativize_to_workspace resolve (files1 ++ files2) git_root workspace_root =
        relativize_to_workspace resolve files1 git_root workspace_root ++
        relativize_to_workspace resolve files2 git_root workspace_root) ∧
     (∀ files,
        length (relativize_to_workspace resolve files git_root workspace_root) ≤
        length files)) ∧
  (∀ resolve changed_files (git_root workspace_root : Path),
     resolve workspace_root = resolve git_root →
     relativize_to_workspace resolve changed_files git_root workspace_root =
       changed_files) ∧
  (∀ resolve changed_files (root : Path),
     relativize_to_workspace resolve changed_files root root = changed_files).
Proof.
  split; [|split].
  - intros resolve git ws rel Hrel Heq.
    pose proof (relativize_descendant resolve git ws rel) as Hdesc.
    split_and!.
    + intros rest. rewrite Hdesc by done. simpl. by rewrite relativize_one_under.
    + rewrite Hdesc by done. simpl. by rewrite relativize_one_root.
    + intros f H1 H2. rewrite Hdesc by done. simpl.
      by rewrite (proj2 (relativize_one_None _ _)).
    + intros files1 files2. rewrite !Hdesc by done. apply omap_app.
    + intros files. rewrite Hdesc by done.
      induction files as [|f files IH]; [done|].
      change (omap (relativize_one (path_str rel)) (f :: files))
        with (match relativize_one (path_str rel) f with
              | Some o => o :: omap (relativize_one (path_str rel)) files
              | None => omap (relativize_one (path_str rel)) files
              end).
      destruct (relativize_one _ f); simpl in *; lia.
  - intros. by apply relativize_same_root.
  - intros. by apply relativize_same_root.
Qed.

Lemma C4_stripping_rule_witness :
  relativize_to_workspace id ["ws/sub" +:+ "/" +:+ "pkg/a.py"] ["repo"] ["repo"; "ws"; "sub"] =
    ["pkg/a.py"] ∧
  relativize_to_workspace id ["ws/sub"] ["repo"] ["repo"; "ws"; "sub"] = ["."] ∧
  relativize_to_workspace id ["ws/subx/a.py"] ["repo"] ["repo"; "ws"; "sub"] = [].
Proof.
  destruct (proj1 C4_stripping_rule id ["repo"] ["repo"; "ws"; "sub"] ["ws"; "sub"])
    as (H1 & H2 & H3 & _); [done|done|].
  split; [apply (H1 "pkg/a.py")|]. split; [exact H2|].
  apply H3; [done|]. intros rest. vm_compute. discriminate.
Defined.

(** * Facts about the change extractor *)

Module ExtractorFacts.
Import Extractor.

(** ** Trimming *)

Lemma rstrip_cons c s :
  rstrip (String c s) =
    if decide (rstrip s = "") then (if is_whitespace c then "" else String c "")
    else String c (rstrip s).
Proof. simpl. destruct (rstrip s); by case_decide. Qed.

Lemma string_app_nil_inv s t : s +:+ t = "" → s = "" ∧ t = "".
Proof. destruct s; [done|]. by rewrite string_app_cons. Qed.

Lemma rstrip_app s t :
  rstrip (s +:+ t) = if decide (rstrip t = "") then rstrip s else s +:+ rstrip t.
Proof.
  induction s as [|c s IH].
  - rewrite !string_app_nil_l. by case_decide.
  - rewrite string_app_cons, !rstrip_cons, IH.
    destruct (decide (rstrip t = "")) as [Ht|Ht]; [done|].
    rewrite decide_False; [done|].
    intros [_ ?]%string_app_nil_inv. done.
Qed.

Lemma rstrip_is_prefix s : String.prefix (rstrip s) s = true.
Proof.
  induction s as [|c s IH]; [done|]. rewrite rstrip_cons.
  case_decide.
  - destruct (is_whitespace c); [done|].
    by rewrite string_prefix_cons, bool_decide_eq_true_2, string_prefix_nil.
  - by rewrite string_prefix_cons, bool_decide_eq_true_2, IH.
Qed.

(** A string that [rstrip] leaves alone starts the trimmed text exactly
    when it starts the text. *)
Lemma prefix_rstrip needle s :
  rstrip needle = needle →
  String.prefix needle (rstrip s) = String.prefix needle s.
Proof.
  intros Hn. destruct (String.prefix needle s) eqn:Hs.
  - apply string_prefix_inv in Hs as [t ->]. rewrite rstrip_app.
    case_decide; [rewrite Hn; apply string_prefix_refl|apply string_prefix_app].
  - destruct (String.prefix needle (rstrip s)) eqn:Hr; [|done].
    rewrite <-Hs. symmetry.
    eapply string_prefix_trans; [exact Hr|apply rstrip_is_prefix].
Qed.

Lemma contains_rstrip needle s :
  rstrip needle = needle → contains needle (rstrip s) = contains needle s.
Proof.
  intros Hn. induction s as [|c s IH]; [done|].
  cbn [contains]. rewrite <-IH, <-(prefix_rstrip needle (String c s)) by done.
  rewrite rstrip_cons. case_decide as Hs.
  - rewrite Hs. destruct (is_whitespace c).
    + cbn [contains]. by destruct (String.prefix needle "").
    + cbn [contains]. by destruct (String.prefix needle _), (String.prefix needle "").
  - by cbn [contains].
Qed.

Lemma contains_lstrip c needle s :
  is_whitespace c = false →
  contains (String c needle) (lstrip s) = contains (String c needle) s.
Proof.
  intros Hc. induction s as [|d s IH]; [done|].
  cbn [lstrip]. destruct (is_whitespace d) eqn:Hd; [|done].
  rewrite IH. cbn [contains]. rewrite string_prefix_cons.
  rewrite bool_decide_eq_false_2; [done|]. intros ->. congruence.
Qed.

(** A needle with no white space at either end is in the trimmed text
    exactly when it is in the text. *)
Lemma contains_strip c needle s :
  is_whitespace c = false → rstrip (String c needle) = String c needle →
  contains (String c needle) (strip s) = contains (String c needle) s.
Proof.
  intros Hc Hr. unfold strip. by rewrite contains_rstrip, contains_lstrip.
Qed.

(** ** Lines *)

Lemma splitlines_from_plain cur l rest :
  no_linebreak l = true →
  splitlines_from false cur (l +:+ rest) = splitlines_from false (cur +:+ l) rest.
Proof.
  revert cur. induction l as [|c l IH]; intros cur Hl.
  - by rewrite string_app_nil_l, string_app_nil_r.
  - simpl in Hl. apply andb_true_iff in Hl as [Hc Hl].
    apply negb_true_iff in Hc.
    rewrite string_app_cons. cbn [splitlines_from andb]. rewrite Hc.
    rewrite IH by done. by rewrite string_app_assoc.
Qed.

Lemma splitlines_plain l :
  no_linebreak l = true →
  splitlines l = match l with EmptyString => [] | _ => [l] end.
Proof.
  intros Hl. unfold splitlines.
  rewrite <-(string_app_nil_r l) at 1. rewrite splitlines_from_plain by done.
  by rewrite string_app_nil_l.
Qed.

Lemma splitlines_line l rest :
  no_linebreak l = true →
  splitlines (l +:+ String LF rest) = l :: splitlines rest.
Proof.
  intros Hl. unfold splitlines. rewrite splitlines_from_plain by done.
  by rewrite string_app_nil_l.
Qed.

(** ** Listings *)

Lemma lstrip_length s : String.length (lstrip s) ≤ String.length s.
Proof.
  induction s as [|c s IH]; [done|]. simpl.
  destruct (is_whitespace c); simpl; lia.
Qed.

Lemma lstrip_fixed_app l rest :
  l ≠ "" → lstrip l = l → lstrip (l +:+ rest) = l +:+ rest.
Proof.
  intros Hne Hl. destruct l as [|c l]; [done|].
  rewrite string_app_cons. simpl in *.
  destruct (is_whitespace c); [|done].
  pose proof (lstrip_length l) as Hlen. rewrite Hl in Hlen. simpl in Hlen. lia.
Qed.

Lemma rstrip_LF_nil s : rstrip (String LF s) = "" ↔ rstrip s = "".
Proof.
  rewrite rstrip_cons. case_decide; [done|]. split; [done|]. by intros.
Qed.

(** Leading blank lines go; the listing then starts with its first path. *)
Lemma lstrip_unlines ls :
  (∀ l, head (filter (λ f, f ≠ "") ls) = Some l → lstrip l = l) →
  ∃ ls', lstrip (unlines ls) = unlines ls' ∧
         filter (λ f, f ≠ "") ls' = filter (λ f, f ≠ "") ls ∧
         ∀ l, l ∈ ls' → l ∈ ls.
Proof.
  induction ls as [|l ls IH]; intros Hhead.
  - by exists [].
  - destruct (decide (l = "")) as [->|Hne].
    + rewrite filter_cons, decide_False in Hhead by (by intros ?).
      destruct (IH Hhead) as (ls' & H1 & H2 & H3).
      exists ls'. rewrite filter_cons, decide_False by (by intros ?).
      split_and!; [done..|]. intros l Hl. right. by apply H3.
    + exists (l :: ls). split_and!; [|done..].
      cbn [unlines]. apply lstrip_fixed_app; [done|].
      apply Hhead. by rewrite filter_cons, decide_True.
Qed.

(** A listing whose last path does not end with white space is not
    trimmed away. *)
Lemma rstrip_unlines_nil ls :
  (∀ l, last (filter (λ f, f ≠ "") ls) = Some l → rstrip l = l) →
  rstrip (unlines ls) = "" → filter (λ f, f ≠ "") ls = [].
Proof.
  induction ls as [|l ls IH]; intros Hlast; [done|].
  cbn [unlines]. rewrite rstrip_app. case_decide as Hu.
  - intros Hl. apply (proj1 (rstrip_LF_nil _)) in Hu.
    rewrite filter_cons in Hlast |- *.
    destruct (decide (l ≠ "")) as [Hne|Hnil].
    + assert (filter (λ f, f ≠ "") ls = []) as Hls.
      { apply IH; [|done]. intros l' Hl'. apply Hlast.
        rewrite last_cons, Hl'. done. }
      rewrite Hls in Hlast. specialize (Hlast l eq_refl). congruence.
    + apply IH; done.
  - by intros [_ ?]%string_app_nil_inv.
Qed.

Lemma filter_splitlines_rstrip_unlines ls :
  Forall (λ l, no_linebreak l = true) ls →
  (∀ l, last (filter (λ f, f ≠ "") ls) = Some l → rstrip l = l) →
  filter (λ f, f ≠ "") (splitlines (rstrip (unlines ls))) = filter (λ f, f ≠ "") ls.
Proof.
  induction 1 as [|l ls Hl Hls IH]; intros Hlast; [done|].
  cbn [unlines]. rewrite rstrip_app. case_decide as Hu.
  - apply (proj1 (rstrip_LF_nil _)) in Hu.
    assert (filter (λ f, f ≠ "") ls = []) as Hnil.
    { apply rstrip_unlines_nil; [|done]. intros l' Hl'. apply Hlast.
      rewrite filter_cons. destruct (decide (l ≠ "")); [|done].
      by rewrite last_cons, Hl'. }
    rewrite filter_cons, Hnil in Hlast |- *.
    destruct (decide (l ≠ "")) as [Hne|Heq].
    + rewrite (Hlast l eq_refl), splitlines_plain by done.
      destruct l; [done|]. by rewrite filter_cons, decide_True.
    + apply dec_stable in Heq as ->. done.
  - assert (rstrip (String LF (unlines ls)) = String LF (rstrip (unlines ls))) as ->.
    { rewrite rstrip_cons. case_decide as Hu'; [|done].
      destruct Hu. by apply rstrip_LF_nil. }
    rewrite splitlines_line by done. rewrite !(filter_cons _ l), IH; [done|].
    intros l' Hl'. apply Hlast. rewrite filter_cons.
    destruct (decide (l ≠ "")); [|done]. by rewrite last_cons, Hl'.
Qed.

Lemma filter_splitlines_strip_unlines ls :
  Forall (λ l, no_linebreak l = true) ls →
  ends_untrimmed (filter (λ f, f ≠ "") ls) →
  filter (λ f, f ≠ "") (splitlines (strip (unlines ls))) = filter (λ f, f ≠ "") ls.
Proof.
  intros Hls [Hhead Hlast]. unfold strip.
  destruct (lstrip_unlines ls Hhead) as (ls' & -> & Hfilter & Hsub).
  rewrite <-Hfilter. apply filter_splitlines_rstrip_unlines.
  - apply Forall_forall. intros l Hl. rewrite Forall_forall in Hls. auto.
  - by rewrite Hfilter.
Qed.

End ExtractorFacts.

(** * The change extractor's properties *)

Import Extractor ExtractorFacts.

(** C5, as the code has it. [ValueError] is raised exactly when the exit
    status is not zero and the diagnostic stream holds ["unknown revision"]
    or ["not a git repository"]; its message names the ref and says to run
    [git fetch] or to pass a valid ref. Every other non-zero exit raises
    [RuntimeError] with ["git diff failed: "] followed by the diagnostic
    text without the white space around it. A zero exit raises nothing and
    returns no empty entry; for a listing of lines without line boundaries
    in them, whose first path does not begin and whose last path does not
    end with white space, it returns the lines that are not empty, in
    order. *)
Theorem C5_error_taxonomy :
  (∀ run base_ref repo_root,
     let result := run (diff_command base_ref) repo_root in
     let outcome := get_changed_files run base_ref repo_root in
     ((∃ msg, outcome = inl (ValueError msg)) ↔
        returncode result ≠ 0%Z ∧
        (contains "unknown revision" (stderr result) = true ∨
         contains "not a git repository" (stderr result) = true)) ∧
     (∀ msg, outcome = inl (ValueError msg) →
        msg = unresolvable_message base_ref ∧
        contains "git fetch" msg = true ∧ contains "valid ref" msg = true) ∧
     ((∃ msg, outcome = inl (RuntimeError msg)) ↔
        returncode result ≠ 0%Z ∧
        contains "unknown revision" (stderr result) = false ∧
        contains "not a git repository" (stderr result) = false) ∧
     (∀ msg, outcome = inl (RuntimeError msg) →
        msg = "git diff failed: " +:+ strip (stderr result)) ∧
     ((∃ paths, outcome = inr paths) ↔ returncode result = 0%Z) ∧
     (∀ paths, outcome = inr paths → Forall (λ f, f ≠ "") paths)) ∧
  (∀ run base_ref repo_root ls,
     returncode (run (diff_command base_ref) repo_root) = 0%Z →
     stdout (run (diff_command base_ref) repo_root) = unlines ls →
     Forall (λ l, no_linebreak l = true) ls →
     ends_untrimmed (filter (λ l, l ≠ "") ls) →
     get_changed_files run base_ref repo_root = inr (filter (λ l, l ≠ "") ls)).
Proof.
  split.
  - intros run base_ref repo_root result outcome.
    assert (contains "unknown revision" (strip (stderr result)) =
            contains "unknown revision" (stderr result)) as H1
      by (by apply contains_strip).
    assert (contains "not a git repository" (strip (stderr result)) =
            contains "not a git repository" (stderr result)) as H2
      by (by apply contains_strip).
    subst outcome. unfold get_changed_files. fold result. rewrite H1, H2.
    destruct (decide (returncode result ≠ 0%Z)) as [Hrc|Hrc].
    + destruct (contains "unknown revision" (stderr result) ||
                contains "not a git repository" (stderr result)) eqn:E.
      * apply orb_true_iff in E. split_and!.
        -- split; [by intros _|intros _; eauto].
        -- intros msg [= <-]. split; [reflexivity|].
           split; apply (contains_app_r _ "Could not resolve ref '"),
                    contains_app_r; by vm_compute.
        -- split; [by intros [? ?]|].
           intros (_ & E1 & E2). rewrite E1, E2 in E. by destruct E.
        -- by intros msg ?.
        -- split; [by intros [? ?]|done].
        -- by intros paths ?.
      * apply orb_false_iff in E as [E1 E2]. split_and!.
        -- split; [by intros [? ?]|].
           intros (_ & [E|E]); congruence.
        -- by intros msg ?.
        -- split; [by intros _|intros _; eauto].
        -- by intros msg [= <-].
        -- split; [by intros [? ?]|done].
        -- by intros paths ?.
    + apply dec_stable in Hrc. split_and!.
      * split; [by intros [? ?]|by intros [? _]].
      * by intros msg ?.
      * split; [by intros [? ?]|by intros [? _]].
      * by intros msg ?.
      * split; [done|intros _; eauto].
      * intros paths [= <-]. apply Forall_forall.
        by intros f [? _]%list_elem_of_filter.
  - intros run base_ref repo_root ls Hrc Hout Hls Hends.
    unfold get_changed_files.
    rewrite decide_False by (rewrite Hrc; intros H; by apply H).
    rewrite Hout. f_equal. by apply filter_splitlines_strip_unlines.
Qed.

Lemma C5_error_taxonomy_witness :
  get_changed_files
    (λ _ _, mkCompleted 0 (unlines ["src/a.py"; ""; " notes.txt "; "docs/read me.md"]) "")
    "main" None = inr ["src/a.py"; " notes.txt "; "docs/read me.md"].
Proof.
  apply (proj2 C5_error_taxonomy
           (λ _ _, mkCompleted 0
                     (unlines ["src/a.py"; ""; " notes.txt "; "docs/read me.md"]) "")
           "main" None ["src/a.py"; ""; " notes.txt "; "docs/read me.md"]); [done|done| |].
  - repeat (apply Forall_cons; split; [reflexivity|]). constructor.
  - split; intros l [= <-]; reflexivity.
Defined.

(** A diagnostic that ends with a line feed, as git writes it: the message
    does not hold it as it was written. And a listing whose first path
    begins with a space: the path comes back without it. *)
Lemma C5_error_taxonomy_counterexample :
  get_changed_files
    (λ _ _, mkCompleted 128 "" ("fatal: bad object" +:+ String LF "")) "main" None =
    inl (RuntimeError "git diff failed: fatal: bad object") ∧
  contains ("fatal: bad object" +:+ String LF "")
    "git diff failed: fatal: bad object" = false ∧
  get_changed_files
    (λ _ _, mkCompleted 0 (unlines [" a.txt"; "b.txt"]) "") "main" None =
    inr ["a.txt"; "b.txt"].
Proof. by vm_compute. Qed.

(** * Further facts about the mapper *)

Module MapperMore.
Import Mapper MapperFacts.

Lemma attribute_union filepath l dc :
  attribute filepath l dc = attribute filepath l ∅ ∪ dc.
Proof.
  rewrite !attribute_find. destruct (find _ _).
  - by rewrite union_empty_r_L.
  - by rewrite union_empty_l_L.
Qed.

Lemma attribute_elem_of filepath l n :
  n ∈ attribute filepath l ∅ ↔
  ∃ p, find (is_match filepath) l = Some p ∧ name p = n.
Proof.
  rewrite attribute_find. destruct (find _ _) as [p|].
  - rewrite union_empty_r_L, elem_of_singleton. split.
    + intros ->. by exists p.
    + by intros (q & [= <-] & <-).
  - split; [by intros ?%not_elem_of_empty|by intros (q & ? & _)].
Qed.



(** The set is the union of what each file contributes. *)
Lemma foldl_attribute_iff rt dt sorted n dc files :
  n ∈ foldl (attribute_unless_trigger rt dt sorted) dc files ↔
  n ∈ dc ∨ ∃ filepath, filepath ∈ files ∧
    n ∈ attribute_unless_trigger rt dt sorted ∅ filepath.
Proof.
  revert dc. induction files as [|f files IH]; intros dc; simpl.
  - split; [by left|]. intros [?|(f & ?%elem_of_nil & _)]; done.
  - rewrite IH. unfold attribute_unless_trigger at 1 3.
    destruct (is_trigger rt dt f) eqn:Hf.
    + split.
      * intros [?|(g & ? & ?)]; [by left|]. right. exists g. split; [by right|done].
      * intros [?|(g & [->|?]%elem_of_cons & Hn)]; [by left| |right; by exists g].
        unfold attribute_unless_trigger in Hn. rewrite Hf in Hn.
        by apply not_elem_of_empty in Hn.
    + rewrite attribute_union. split.
      * intros [[?|?]%elem_of_union|(g & ? & ?)].
        -- right. exists f. split; [left|]. unfold attribute_unless_trigger.
           by rewrite Hf.
        -- by left.
        -- right. exists g. split; [by right|done].
      * intros [?|(g & [->|?]%elem_of_cons & Hn)].
        -- left. apply elem_of_union. by right.
        -- left. unfold attribute_unless_trigger in Hn. rewrite Hf in Hn.
           apply elem_of_union. by left.
        -- right. by exists g.
Qed.

Lemma map_files_elem_of files (packages : Packages) root_triggers dir_triggers n :
  n ∈ (map_files_to_packages files packages root_triggers dir_triggers).1 ↔
  ∃ filepath, filepath ∈ files ∧
    n ∈ attribute_unless_trigger (default DEFAULT_ROOT_TRIGGERS root_triggers)
          (default DEFAULT_DIR_TRIGGERS dir_triggers) (sorted_packages packages)
          ∅ filepath.
Proof.
  unfold map_files_to_packages. rewrite scan_eq. cbn [fst].
  rewrite foldl_attribute_iff. split; [|by right].
  intros [?%not_elem_of_empty|?]; done.
Qed.


Lemma pair_eq {A B} (x y : A * B) : x.1 = y.1 → x.2 = y.2 → x = y.
Proof. destruct x, y; simpl; congruence. Qed.

Lemma bool_eq_iff (b c : bool) : (b = true ↔ c = true) → b = c.
Proof. destruct b, c; intros [H1 H2]; auto; symmetry; auto. Qed.

Lemma string_prefix_same_length s t :
  String.prefix s t = true → String.length s = String.length t → s = t.
Proof.
  intros [r ->]%string_prefix_inv Hlen. rewrite string_length_app in Hlen.
  destruct r; [by rewrite string_app_nil_r|simpl in Hlen; lia].
Qed.

Lemma contains_cons needle c hay :
  contains needle hay = true → contains needle (String c hay) = true.
Proof. intros H. cbn [contains]. rewrite H. apply orb_true_r. Qed.

Lemma contains_app_l needle s t :
  contains needle (s +:+ needle +:+ t) = true.
Proof. apply contains_app. Qed.

(** The package the sorted scan stops at is a longest matching one. *)
Lemma find_sorted_desc_max f l p :
  find f (sorted_desc l) = Some p →
  p ∈ l ∧ f p = true ∧ ∀ q, q ∈ l → f q = true → key q ≤ key p.
Proof.
  intros (l1 & l2 & -> & Hp & H1 & H2)%find_sorted_desc_Some.
  split_and!; [apply elem_of_app; right; left|done|].
  intros q [Hq|[->|Hq]%elem_of_cons]%elem_of_app Hfq.
  - specialize (H1 q Hq Hfq). lia.
  - done.
  - by apply H2.
Qed.

(** With one name per source path, the name found does not depend on the
    order of the registry. *)
Lemma find_sorted_desc_perm_name filepath l1 l2 p :
  l1 ≡ₚ l2 →
  (∀ p q, p ∈ l1 → q ∈ l1 → source_path p = source_path q → name p = name q) →
  find (is_match filepath) (sorted_desc l1) = Some p →
  ∃ p', find (is_match filepath) (sorted_desc l2) = Some p' ∧ name p' = name p.
Proof.
  intros Hperm Huniq (Hp & Hmp & Hmax)%find_sorted_desc_max.
  destruct (find (is_match filepath) (sorted_desc l2)) as [p'|] eqn:Hfind.
  - exists p'. split; [done|].
    apply find_sorted_desc_max in Hfind as (Hp' & Hmp' & Hmax').
    rewrite <-Hperm in Hp'.
    assert (key p' ≤ key p) as Hle1 by by apply Hmax.
    assert (key p ≤ key p') as Hle2 by (apply Hmax'; [by rewrite <-Hperm|done]).
    apply Huniq; [done..|].
    apply string_prefix_same_length; [|unfold key in *; lia].
    by apply (is_match_nested filepath).
  - rewrite find_sorted_desc_None in Hfind.
    rewrite Hperm in Hp. specialize (Hfind p Hp). congruence.
Qed.

Lemma size_singleton_union (x : string) (X : gset string) :
  size ({[ x ]} ∪ X) ≤ S (size X).
Proof.
  rewrite (union_comm_L {[x]} X), size_union_alt.
  assert (size (({[x]} : gset string) ∖ X) ≤ 1); [|lia].
  rewrite <-(size_singleton (C:=gset string) x). apply subseteq_size.
  apply subseteq_difference_l. done.
Qed.

Lemma size_list_to_set_le (l : list string) :
  size (list_to_set l : gset string) ≤ length l.
Proof.
  induction l as [|x l IH].
  - by rewrite list_to_set_nil, size_empty.
  - rewrite list_to_set_cons. cbn [length].
    pose proof (size_singleton_union x (list_to_set l)). lia.
Qed.

End MapperMore.

(** * Further properties of the mapper *)

Import MapperMore.

(** X7. The mapper is a homomorphism on the list of changed files: the
    result for a concatenation is the union of the two directly-changed
    sets and the disjunction of the two flags. *)
Theorem X7_map_files_app (files1 files2 : list string) (packages : Packages)
    (root_triggers dir_triggers : option (gset string)) :
  map_files_to_packages (files1 ++ files2) packages root_triggers dir_triggers =
    ((map_files_to_packages files1 packages root_triggers dir_triggers).1 ∪
     (map_files_to_packages files2 packages root_triggers dir_triggers).1,
     (map_files_to_packages files1 packages root_triggers dir_triggers).2 ||
     (map_files_to_packages files2 packages root_triggers dir_triggers).2).
Proof.
  apply pair_eq; cbn [fst snd].
  - apply set_eq. intros n.
    rewrite elem_of_union, !map_files_elem_of. split.
    + intros (f & [?|?]%elem_of_app & ?); [left|right]; by exists f.
    + intros [(f & ? & ?)|(f & ? & ?)]; exists f; (split; [|done]);
        apply elem_of_app; [by left|by right].
  - rewrite !map_files_test_all. apply existsb_app.
Qed.

(** X8. The result depends on the changed files as a set only: neither
    their order nor repetitions matter. *)
Theorem X8_map_files_set_of_files (files1 files2 : list string) (packages : Packages)
    (root_triggers dir_triggers : option (gset string)) :
  (∀ filepath, filepath ∈ files1 ↔ filepath ∈ files2) →
  map_files_to_packages files1 packages root_triggers dir_triggers =
  map_files_to_packages files2 packages root_triggers dir_triggers.
Proof.
  intros Hsame. apply pair_eq.
  - apply set_eq. intros n. rewrite !map_files_elem_of.
    split; intros (f & Hf & ?); exists f; (split; [by apply Hsame|done]).
  - rewrite !map_files_test_all. apply bool_eq_iff.
    rewrite !existsb_is_trigger.
    split; intros (f & Hf & ?); exists f; (split; [by apply Hsame|done]).
Qed.

Lemma X8_map_files_set_of_files_witness :
  map_files_to_packages
    ["packages/web/b.py"; "uv.lock"; "packages/core/a.py"; "packages/web/b.py"]
    [ ("core", mkPackage "core" "packages/core");
      ("web", mkPackage "web" "packages/web") ] None None =
  map_files_to_packages
    ["packages/core/a.py"; "packages/web/b.py"; "uv.lock"]
    [ ("core", mkPackage "core" "packages/core");
      ("web", mkPackage "web" "packages/web") ] None None.
Proof.
  apply X8_map_files_set_of_files.
  intros f. rewrite !elem_of_cons, !elem_of_nil. tauto.
Defined.

(** X9. The flag says exactly that some changed file is a trigger: it is
    set when, and only when, a changed file is one of the root triggers or
    starts with one of the directory triggers; with the defaults, when a
    changed file is [pyproject.toml] or [uv.lock] at the root, or lies
    under [.github/]. *)
Theorem X9_test_all_iff :
  (∀ changed_files (packages : Packages) root_triggers dir_triggers,
     (map_files_to_packages changed_files packages root_triggers dir_triggers).2 = true ↔
     ∃ filepath, filepath ∈ changed_files ∧
       (filepath ∈ default DEFAULT_ROOT_TRIGGERS root_triggers ∨
        ∃ trigger, trigger ∈ default DEFAULT_DIR_TRIGGERS dir_triggers ∧
                   String.prefix trigger filepath = true)) ∧
  (∀ changed_files (packages : Packages),
     (map_files_to_packages changed_files packages None None).2 = true ↔
     ∃ filepath, filepath ∈ changed_files ∧
       (filepath = "pyproject.toml" ∨ filepath = "uv.lock" ∨
        String.prefix ".github/" filepath = true)).
Proof.
  assert (∀ changed_files (packages : Packages) root_triggers dir_triggers,
     (map_files_to_packages changed_files packages root_triggers dir_triggers).2 = true ↔
     ∃ filepath, filepath ∈ changed_files ∧
       (filepath ∈ default DEFAULT_ROOT_TRIGGERS root_triggers ∨
        ∃ trigger, trigger ∈ default DEFAULT_DIR_TRIGGERS dir_triggers ∧
                   String.prefix trigger filepath = true)) as Hgen.
  { intros files packages rt dt.
    rewrite map_files_test_all, existsb_is_trigger.
    by setoid_rewrite is_trigger_true. }
  split; [exact Hgen|].
  intros files packages. rewrite Hgen. cbn [default].
  unfold DEFAULT_ROOT_TRIGGERS, DEFAULT_DIR_TRIGGERS.
  split; intros (f & Hf & H); exists f; (split; [done|]).
  - destruct H as [[?%elem_of_singleton|?%elem_of_singleton]%elem_of_union
                  |(t & ->%elem_of_singleton & ?)]; auto.
  - destruct H as [->|[->|H]].
    + left. apply elem_of_union. left. by apply elem_of_singleton.
    + left. apply elem_of_union. right. by apply elem_of_singleton.
    + right. exists ".github/". split; [by apply elem_of_singleton|done].
Qed.

(** X10. Completeness of the directly-changed set: a changed file that is
    no trigger and lies under the [source_path] of some package other than
    the virtual root puts a name into the set, the name of a package under
    whose [source_path] the file lies as well, nested in or equal to the
    first one's. *)
Theorem X10_direct_set_complete (changed_files : list string) (packages : Packages)
    (root_triggers dir_triggers : option (gset string))
    (filepath : string) (p : WorkspacePackage) :
  filepath ∈ changed_files →
  filepath ∉ default DEFAULT_ROOT_TRIGGERS root_triggers →
  (∀ trigger, trigger ∈ default DEFAULT_DIR_TRIGGERS dir_triggers →
     String.prefix trigger filepath = false) →
  p ∈ values packages →
  source_path p ≠ "." →
  String.prefix (source_path p +:+ "/") filepath = true →
  ∃ q, q ∈ values packages ∧
       name q ∈ (map_files_to_packages changed_files packages
                   root_triggers dir_triggers).1 ∧
       source_path q ≠ "." ∧
       String.prefix (source_path q +:+ "/") filepath = true ∧
       String.prefix (source_path p) (source_path q) = true.
Proof.
  intros Hf Hroot Hdir Hp Hne Hpre.
  assert (is_match filepath p = true) as Hmp.
  { unfold is_match. rewrite Hpre, andb_true_r.
    destruct (String.eqb_spec (source_path p) "."); done. }
  assert (is_trigger (default DEFAULT_ROOT_TRIGGERS root_triggers)
            (default DEFAULT_DIR_TRIGGERS dir_triggers) filepath = false) as Htrig.
  { destruct (is_trigger _ _ _) eqn:E; [|done].
    apply is_trigger_true in E as [?|(t & Ht & Hpt)]; [done|].
    rewrite (Hdir t Ht) in Hpt. done. }
  destruct (find (is_match filepath) (sorted_packages packages)) as [q|] eqn:Hfind.
  - pose proof Hfind as (Hq & Hmq & Hmax)%find_sorted_desc_max.
    exists q. pose proof Hmq as [Hq1 Hq2]%andb_true_iff.
    split_and!; [done| |by destruct (String.eqb_spec (source_path q) ".")|done|].
    + apply map_files_elem_of. exists filepath. split; [done|].
      unfold attribute_unless_trigger. rewrite Htrig.
      apply attribute_elem_of. by exists q.
    + apply (is_match_nested filepath); [done..|]. by apply Hmax.
  - unfold sorted_packages in Hfind. rewrite find_sorted_desc_None in Hfind.
    specialize (Hfind p Hp). congruence.
Qed.

Lemma X10_direct_set_complete_witness :
  ∃ q, q ∈ [mkPackage "a" "pkg/a"; mkPackage "a/sub" "pkg/a/sub"] ∧
       name q ∈ (map_files_to_packages ["README.md"; "pkg/a/sub/file.py"]
                   [("a", mkPackage "a" "pkg/a"); ("a/sub", mkPackage "a/sub" "pkg/a/sub")]
                   None None).1 ∧
       source_path q ≠ "." ∧
       String.prefix (source_path q +:+ "/") "pkg/a/sub/file.py" = true ∧
       String.prefix "pkg/a" (source_path q) = true.
Proof.
  apply (X10_direct_set_complete ["README.md"; "pkg/a/sub/file.py"]
           [("a", mkPackage "a" "pkg/a"); ("a/sub", mkPackage "a/sub" "pkg/a/sub")]
           None None "pkg/a/sub/file.py" (mkPackage "a" "pkg/a")).
  - right. left.
  - by vm_compute.
  - intros t Ht. cbn [default] in Ht. unfold DEFAULT_DIR_TRIGGERS in Ht.
    apply elem_of_singleton in Ht as ->. reflexivity.
  - left.
  - done.
  - reflexivity.
Defined.

(** X11. The order of the registry does not matter as long as packages
    that share a [source_path] share their name: two registries with the
    same packages then give the same result. *)
Theorem X11_registry_order_irrelevant (changed_files : list string)
    (packages1 packages2 : Packages)
    (root_triggers dir_triggers : option (gset string)) :
  values packages1 ≡ₚ values packages2 →
  (∀ p q, p ∈ values packages1 → q ∈ values packages1 →
     source_path p = source_path q → name p = name q) →
  map_files_to_packages changed_files packages1 root_triggers dir_triggers =
  map_files_to_packages changed_files packages2 root_triggers dir_triggers.
Proof.
  intros Hperm Huniq.
  assert (∀ p q, p ∈ values packages2 → q ∈ values packages2 →
            source_path p = source_path q → name p = name q) as Huniq'.
  { intros p q Hp Hq. rewrite <-Hperm in Hp, Hq. by apply Huniq. }
  apply pair_eq; [|by rewrite !map_files_test_all].
  apply set_eq. intros n. rewrite !map_files_elem_of.
  unfold attribute_unless_trigger, sorted_packages.
  split; intros (f & Hf & Hn); exists f; (split; [done|]);
    destruct (is_trigger _ _ f); try done;
    apply attribute_elem_of in Hn as (p & Hfind & <-); apply attribute_elem_of.
  - by apply (find_sorted_desc_perm_name f (values packages1)).
  - by apply (find_sorted_desc_perm_name f (values packages2)).
Qed.

Lemma X11_registry_order_irrelevant_witness :
  map_files_to_packages ["pkg/a/sub/file.py"; "pkg/b/x.py"]
    [ ("a", mkPackage "a" "pkg/a"); ("b", mkPackage "b" "pkg/b");
      ("a/sub", mkPackage "a/sub" "pkg/a/sub") ] None None =
  map_files_to_packages ["pkg/a/sub/file.py"; "pkg/b/x.py"]
    [ ("a/sub", mkPackage "a/sub" "pkg/a/sub"); ("a", mkPackage "a" "pkg/a");
      ("b", mkPackage "b" "pkg/b") ] None None.
Proof.
  apply X11_registry_order_irrelevant.
  - cbn [values map snd].
    symmetry.
    exact (Permutation_cons_append
             [mkPackage "a" "pkg/a"; mkPackage "b" "pkg/b"]
             (mkPackage "a/sub" "pkg/a/sub")).
  - cbn [values map snd]. intros p q Hp Hq.
    rewrite !elem_of_cons, elem_of_nil in Hp, Hq.
    destruct Hp as [->|[->|[->|[]]]], Hq as [->|[->|[->|[]]]]; cbn; congruence.
Defined.

(** X12. A changed file whose path has no ["/"] in it, a file at the root
    of the workspace, is never attributed to a package, whatever the
    registry and the triggers. *)
Theorem X12_root_level_files_unattributed (changed_files : list string)
    (packages : Packages) (root_triggers dir_triggers : option (gset string)) :
  Forall (λ filepath, contains "/" filepath = false) changed_files →
  (map_files_to_packages changed_files packages root_triggers dir_triggers).1 = ∅.
Proof.
  intros Hfiles. apply set_eq. intros n. split; [|by intros ?%not_elem_of_empty].
  intros (f & Hf & Hn)%map_files_elem_of.
  rewrite Forall_forall in Hfiles. specialize (Hfiles f Hf).
  unfold attribute_unless_trigger in Hn.
  destruct (is_trigger _ _ f); [by apply not_elem_of_empty in Hn|].
  apply attribute_elem_of in Hn as (p & [_ Hmatch]%find_elem_of & _).
  apply andb_true_iff in Hmatch as [_ [r ->]%string_prefix_inv].
  rewrite string_app_assoc, contains_app in Hfiles. done.
Qed.

Lemma X12_root_level_files_unattributed_witness :
  (map_files_to_packages ["README.md"; "."; "uv.lock"]
     [("core", mkPackage "core" "packages/core"); ("odd", mkPackage "odd" "")]
     None None).1 = ∅.
Proof.
  apply X12_root_level_files_unattributed.
  repeat (apply Forall_cons; split; [reflexivity|]). constructor.
Defined.

(** X13. The directly-changed set holds no more names than there are
    changed files, and no more than there are packages. *)
Theorem X13_direct_set_size (changed_files : list string) (packages : Packages)
    (root_triggers dir_triggers : option (gset string)) :
  size (map_files_to_packages changed_files packages root_triggers dir_triggers).1 ≤
    length changed_files ∧
  size (map_files_to_packages changed_files packages root_triggers dir_triggers).1 ≤
    length packages.
Proof.
  split.
  - unfold map_files_to_packages. rewrite scan_eq. cbn [fst].
    generalize (default DEFAULT_ROOT_TRIGGERS root_triggers)
               (default DEFAULT_DIR_TRIGGERS dir_triggers) (sorted_packages packages).
    intros rt dt sorted.
    assert (∀ dc, size (foldl (attribute_unless_trigger rt dt sorted) dc changed_files) ≤
                  size dc + length changed_files) as Hgen.
    { induction changed_files as [|f files IH]; intros dc; simpl; [lia|].
      etrans; [apply IH|].
      assert (size (attribute_unless_trigger rt dt sorted dc f) ≤ S (size dc)); [|lia].
      unfold attribute_unless_trigger. destruct (is_trigger rt dt f); [lia|].
      rewrite attribute_find. destruct (find _ _); [apply size_singleton_union|lia]. }
    specialize (Hgen ∅). by rewrite size_empty in Hgen.
  - etrans; [apply (subseteq_size _ (list_to_set (name <$> values packages)))|].
    + intros n (f & _ & Hn)%map_files_elem_of.
      unfold attribute_unless_trigger in Hn.
      destruct (is_trigger _ _ f); [by apply not_elem_of_empty in Hn|].
      apply attribute_elem_of in Hn as (p & [Hp _]%find_elem_of & <-).
      unfold sorted_packages in Hp. rewrite sorted_desc_perm in Hp.
      apply elem_of_list_to_set, list_elem_of_fmap. by exists p.
    + etrans; [apply size_list_to_set_le|].
      unfold values. by rewrite length_fmap, length_map.
Qed.

(** * Further facts about the relativizer *)

Module RelativizerMore.
Import Relativizer RelativizerFacts.

Lemma concat_app sep (l1 l2 : list string) :
  l1 ≠ [] → l2 ≠ [] →
  String.concat sep (l1 ++ l2) =
    String.concat sep l1 +:+ sep +:+ String.concat sep l2.
Proof.
  intros H1 H2. induction l1 as [|x l1 IH]; [done|].
  destruct l1 as [|y l1].
  - destruct l2 as [|z l2]; [done|]. reflexivity.
  - change (String.concat sep ((x :: y :: l1) ++ l2))
      with (x +:+ sep +:+ String.concat sep ((y :: l1) ++ l2)).
    rewrite IH by done.
    change (String.concat sep (x :: y :: l1))
      with (x +:+ sep +:+ String.concat sep (y :: l1)).
    by rewrite !string_app_assoc.
Qed.

Lemma path_str_app (rel1 rel2 : list string) :
  rel1 ≠ [] → rel2 ≠ [] →
  path_str (rel1 ++ rel2) = path_str rel1 +:+ "/" +:+ path_str rel2.
Proof.
  intros H1 H2. unfold path_str.
  destruct rel1 as [|x rel1]; [done|]. destruct rel2 as [|y rel2]; [done|].
  by apply concat_app.
Qed.

Lemma omap_cons_eq {A B} (g : A → option B) (x : A) (l : list A) :
  omap g (x :: l) =
    match g x with Some y => y :: omap g l | None => omap g l end.
Proof. reflexivity. Qed.

Lemma omap_omap {A B C} (g1 : A → option B) (g2 : B → option C) (l : list A) :
  omap g2 (omap g1 l) = omap (λ x, g1 x ≫= g2) l.
Proof.
  induction l as [|x l IH]; [done|]. rewrite !omap_cons_eq.
  destruct (g1 x) as [y|]; [|exact IH].
  rewrite omap_cons_eq. cbn [mbind option_bind].
  destruct (g2 y); [f_equal|]; exact IH.
Qed.

Lemma option_ext {A} (x y : option A) : (∀ a, x = Some a ↔ y = Some a) → x = y.
Proof.
  intros H. destruct x as [a|], y as [b|]; [| | |done].
  - by apply H.
  - symmetry. by apply H.
  - by apply H.
Qed.

Lemma dot_not_under p o : "." ≠ p +:+ "/" +:+ o.
Proof.
  destruct p as [|c p]; [done|]. rewrite string_app_cons. intros [= _ H].
  symmetry in H. by destruct p.
Qed.

(** Stripping [p1 + "/" + p2] at once is stripping [p1] and then [p2]. *)
Lemma relativize_one_nested p1 p2 f :
  p2 ≠ "." →
  relativize_one (p1 +:+ "/" +:+ p2) f =
    relativize_one p1 f ≫= relativize_one p2.
Proof.
  intros Hdot. apply option_ext. intros o.
  rewrite relativize_one_Some, bind_Some.
  setoid_rewrite relativize_one_Some. split.
  - intros [->|[-> ->]].
    + exists (p2 +:+ "/" +:+ o). split; [left|by left].
      by rewrite !string_app_assoc.
    + exists p2. split; [left|by right]. done.
  - intros (r & Hf & Hr).
    destruct Hf as [Hf|[Hf Hr1]], Hr as [Hr|[Hr Ho]].
    + left. by rewrite Hf, Hr, !string_app_assoc.
    + right. by rewrite Hf, Hr.
    + rewrite Hr1 in Hr. by destruct (dot_not_under p2 o).
    + rewrite Hr1 in Hr. by destruct Hdot.
Qed.

End RelativizerMore.

(** * Further properties of the relativizer *)

Import RelativizerMore.

(** X4. A workspace root that is neither the repository root nor below it
    gives the empty list, whatever the changed files. *)
Theorem X4_relativize_outside_repository (resolve : list string → list string)
    (changed_files : list string) (git_root workspace_root : list string) :
  (∀ rel, resolve workspace_root ≠ resolve git_root ++ rel) →
  relativize_to_workspace resolve changed_files git_root workspace_root = [].
Proof.
  intros Hout.
  destruct (relativize_cases resolve git_root workspace_root changed_files)
    as [[Heq _]|[(rel & _ & Heq & _)|[_ ->]]]; [| |done].
  - destruct (Hout []). by rewrite app_nil_r.
  - by destruct (Hout rel).
Qed.

Lemma X4_relativize_outside_repository_witness :
  relativize_to_workspace id ["ws/a.py"; "other/ws/b.py"] ["repo"] ["other"; "ws"] = [].
Proof.
  apply X4_relativize_outside_repository.
  intros rel. unfold id. simpl. intros [=].
Defined.

(** X5. Round trip: the paths of files below the workspace root, written
    relative to the repository root, are given back as they were. *)
Theorem X5_relativize_round_trip (resolve : list string → list string)
    (git_root workspace_root rel : list string) (rests : list string) :
  rel ≠ [] →
  resolve workspace_root = resolve git_root ++ rel →
  relativize_to_workspace resolve
    ((λ rest, path_str rel +:+ "/" +:+ rest) <$> rests) git_root workspace_root =
    rests.
Proof.
  intros Hrel Heq. rewrite (relativize_descendant _ _ _ rel) by done.
  induction rests as [|r rests IH]; [done|].
  by rewrite fmap_cons, omap_cons_eq, relativize_one_under, IH.
Qed.

Lemma X5_relativize_round_trip_witness :
  relativize_to_workspace id
    ((λ rest, "libs/py" +:+ "/" +:+ rest) <$> ["pkg/a.py"; "libs/py/x"; "."; ""])
    ["repo"] ["repo"; "libs"; "py"] = ["pkg/a.py"; "libs/py/x"; "."; ""].
Proof.
  apply (X5_relativize_round_trip id ["repo"] ["repo"; "libs"; "py"] ["libs"; "py"]);
    done.
Defined.

(** X6. Relativizing through a directory in between: for a directory
    [mid] below the repository root and a workspace root below [mid],
    relativizing to [mid] and then from [mid] to the workspace root gives
    what relativizing to the workspace root at once gives. *)
Theorem X6_relativize_in_two_steps (resolve : list string → list string)
    (changed_files : list string) (git_root mid workspace_root rel1 rel2 : list string) :
  rel1 ≠ [] → rel2 ≠ [] → path_str rel2 ≠ "." →
  resolve mid = resolve git_root ++ rel1 →
  resolve workspace_root = resolve mid ++ rel2 →
  relativize_to_workspace resolve changed_files git_root workspace_root =
  relativize_to_workspace resolve
    (relativize_to_workspace resolve changed_files git_root mid) mid workspace_root.
Proof.
  intros H1 H2 Hdot Hmid Hws.
  rewrite (relativize_descendant resolve git_root workspace_root (rel1 ++ rel2)).
  - rewrite (relativize_descendant resolve git_root mid rel1) by done.
    rewrite (relativize_descendant resolve mid workspace_root rel2) by done.
    rewrite omap_omap, path_str_app by done.
    induction changed_files as [|f files IH]; [done|].
    by rewrite !omap_cons_eq, relativize_one_nested, IH.
  - intros [? _]%app_eq_nil. done.
  - by rewrite Hws, Hmid, app_assoc.
Qed.

Lemma X6_relativize_in_two_steps_witness :
  relativize_to_workspace id ["libs/py/pkg/a.py"; "libs"; "libs/py"; "libs/js/b.js"]
    ["repo"] ["repo"; "libs"; "py"] =
  relativize_to_workspace id
    (relativize_to_workspace id ["libs/py/pkg/a.py"; "libs"; "libs/py"; "libs/js/b.js"]
       ["repo"] ["repo"; "libs"])
    ["repo"; "libs"] ["repo"; "libs"; "py"].
Proof.
  apply (X6_relativize_in_two_steps id _ ["repo"] ["repo"; "libs"] ["repo"; "libs"; "py"]
           ["libs"] ["py"]); done.
Defined.

(** * Further facts about the change extractor *)

Module ExtractorMore.
Import Extractor ExtractorFacts.

Lemma lstrip_all_whitespace s : all_whitespace s = true → lstrip s = "".
Proof.
  induction s as [|c s IH]; [done|]. simpl.
  intros [-> ?]%andb_true_iff. auto.
Qed.

Lemma rstrip_all_whitespace s : all_whitespace s = true → rstrip s = "".
Proof.
  induction s as [|c s IH]; [done|]. cbn [all_whitespace].
  intros [Hc Hs]%andb_true_iff. rewrite rstrip_cons, (IH Hs).
  rewrite decide_True by done. by rewrite Hc.
Qed.

Lemma lstrip_padded a s : all_whitespace a = true → lstrip (a +:+ s) = lstrip s.
Proof.
  induction a as [|c a IH]; [done|]. cbn [all_whitespace].
  intros [Hc Ha]%andb_true_iff. rewrite string_app_cons. cbn [lstrip].
  rewrite Hc. auto.
Qed.

Lemma rstrip_padded s b : all_whitespace b = true → rstrip (s +:+ b) = rstrip s.
Proof.
  intros Hb. rewrite rstrip_app, (rstrip_all_whitespace b Hb).
  by rewrite decide_True.
Qed.

Lemma strip_padded_r s b : all_whitespace b = true → strip (s +:+ b) = strip s.
Proof.
  intros Hb. unfold strip. induction s as [|c s IH].
  - rewrite string_app_nil_l. by rewrite (lstrip_all_whitespace b Hb).
  - rewrite string_app_cons. cbn [lstrip].
    destruct (is_whitespace c); [exact IH|].
    rewrite <-string_app_cons. by apply rstrip_padded.
Qed.

(** White space around a text does not survive [strip]. *)
Lemma strip_padded a s b :
  all_whitespace a = true → all_whitespace b = true →
  strip (a +:+ s +:+ b) = strip s.
Proof.
  intros Ha Hb. unfold strip at 1. rewrite lstrip_padded by done.
  by apply strip_padded_r.
Qed.

Lemma strip_all_whitespace s : all_whitespace s = true → strip s = "".
Proof. intros Hs. unfold strip. by rewrite lstrip_all_whitespace. Qed.

Lemma no_linebreak_snoc cur c :
  no_linebreak cur = true → is_linebreak c = false →
  no_linebreak (cur +:+ String c "") = true.
Proof.
  intros Hcur Hc. induction cur as [|d cur IH].
  - rewrite string_app_nil_l. simpl. by rewrite Hc.
  - rewrite string_app_cons. simpl in *.
    apply andb_true_iff in Hcur as [-> Hcur]. auto.
Qed.

(** No line of [splitlines] holds a line boundary. *)
Lemma splitlines_from_no_linebreak after_cr cur s :
  no_linebreak cur = true →
  Forall (λ l, no_linebreak l = true) (splitlines_from after_cr cur s).
Proof.
  revert after_cr cur. induction s as [|c s IH]; intros after_cr cur Hcur.
  - simpl. destruct cur; [constructor|]. by repeat constructor.
  - cbn [splitlines_from].
    destruct (after_cr && bool_decide (c = LF)); [by apply IH|].
    destruct (is_linebreak c) eqn:Hc.
    + constructor; [done|]. by apply IH.
    + apply IH. by apply no_linebreak_snoc.
Qed.

End ExtractorMore.

(** * Further properties of the change extractor *)

Import ExtractorMore.

(** X1. [get_git_root] fails exactly when git exits with a status other
    than zero, always with the same [ValueError], whatever git wrote; on
    success the path git printed goes to [Path] as it is, without the line
    feed after it or any other white space around it. *)
Theorem X1_get_git_root :
  (∀ run mk_path cwd,
     ((∃ e, get_git_root run mk_path cwd = inl e) ↔
        returncode (run toplevel_command cwd) ≠ 0%Z) ∧
     (∀ e, get_git_root run mk_path cwd = inl e →
        e = ValueError "Not a git repository. Run difftrace from within a git repo.")) ∧
  (∀ run mk_path cwd before printed after,
     returncode (run toplevel_command cwd) = 0%Z →
     stdout (run toplevel_command cwd) = before +:+ printed +:+ after →
     all_whitespace before = true → all_whitespace after = true →
     strip printed = printed →
     get_git_root run mk_path cwd = inr (mk_path printed)).
Proof.
  split.
  - intros run mk_path cwd. unfold get_git_root.
    destruct (decide (returncode (run toplevel_command cwd) ≠ 0%Z)) as [Hrc|Hrc].
    + split; [split; [done|eauto]|]. by intros e [= <-].
    + split; [split; [by intros [? ?]|done]|]. by intros e ?.
  - intros run mk_path cwd a s b Hrc Hout Ha Hb Hs. unfold get_git_root.
    rewrite decide_False by (rewrite Hrc; intros H; by apply H).
    by rewrite Hout, strip_padded, Hs.
Qed.

Lemma X1_get_git_root_witness :
  get_git_root
    (λ _ _, mkCompleted 0 ("/home/dev/my repo" +:+ String LF "") "")
    (λ s, [s]) None = inr ["/home/dev/my repo"].
Proof.
  apply (proj2 X1_get_git_root
           (λ _ _, mkCompleted 0 ("/home/dev/my repo" +:+ String LF "") "")
           (λ s, [s]) None "" "/home/dev/my repo" (String LF "")); done.
Defined.

(** X2. White space around what git wrote is of no account to
    [get_changed_files]: two runs with the same exit status whose output
    and diagnostic streams differ by white space at the ends only give the
    same result. A listing without its final line feed is read like the
    one with it. *)
Theorem X2_get_changed_files_padding
    (run1 run2 : list string → option (list string) → CompletedProcess)
    (base_ref : string) (repo_root : option (list string)) (a b c d : string) :
  let result1 := run1 (diff_command base_ref) repo_root in
  let result2 := run2 (diff_command base_ref) repo_root in
  returncode result1 = returncode result2 →
  stdout result1 = a +:+ stdout result2 +:+ b →
  stderr result1 = c +:+ stderr result2 +:+ d →
  all_whitespace a = true → all_whitespace b = true →
  all_whitespace c = true → all_whitespace d = true →
  get_changed_files run1 base_ref repo_root = get_changed_files run2 base_ref repo_root.
Proof.
  intros result1 result2 Hrc Hout Herr Ha Hb Hc Hd.
  unfold get_changed_files. fold result1 result2.
  by rewrite Hrc, Hout, Herr, !strip_padded.
Qed.

Lemma X2_get_changed_files_padding_witness :
  get_changed_files
    (λ _ _, mkCompleted 0 ("src/a.py" +:+ String LF "docs/b.md" +:+ String LF "") "")
    "main" None =
  get_changed_files
    (λ _ _, mkCompleted 0 ("src/a.py" +:+ String LF "docs/b.md") "") "main" None.
Proof.
  apply (X2_get_changed_files_padding _ _ "main" None "" (String LF "") "" ""); done.
Defined.

(** X3. No path returned by [get_changed_files] is empty or holds a line
    boundary. *)
Theorem X3_get_changed_files_lines
    (run : list string → option (list string) → CompletedProcess)
    (base_ref : string) (repo_root : option (list string)) (paths : list string) :
  get_changed_files run base_ref repo_root = inr paths →
  Forall (λ f, f ≠ "" ∧ no_linebreak f = true) paths.
Proof.
  unfold get_changed_files. destruct (decide _); [by destruct (_ || _)|].
  intros [= <-]. apply Forall_forall. intros f [Hne Hf]%list_elem_of_filter.
  split; [done|].
  pose proof (splitlines_from_no_linebreak false ""
                (strip (stdout (run (diff_command base_ref) repo_root))) eq_refl) as Hall.
  rewrite Forall_forall in Hall. by apply Hall.
Qed.

Lemma X3_get_changed_files_lines_witness :
  Forall (λ f, f ≠ "" ∧ no_linebreak f = true) ["a b.py"; "c.py"; "d.py"].
Proof.
  apply (X3_get_changed_files_lines
           (λ _ _, mkCompleted 0
                     ("a b.py" +:+ String CR (String LF (String LF "c.py")) +:+
                      String CR "d.py" +:+ String LF "") "")
           "main" None).
  reflexivity.
Defined.

(** X14. An empty diff: when git exits with status zero and writes nothing
    but white space, [get_changed_files] returns the empty list. *)
Theorem X14_get_changed_files_empty
    (run : list string → option (list string) → CompletedProcess)
    (base_ref : string) (repo_root : option (list string)) :
  returncode (run (diff_command base_ref) repo_root) = 0%Z →
  all_whitespace (stdout (run (diff_command base_ref) repo_root)) = true →
  get_changed_files run base_ref repo_root = inr [].
Proof.
  intros Hrc Hout. unfold get_changed_files.
  rewrite decide_False by (rewrite Hrc; intros H; by apply H).
  by rewrite strip_all_whitespace.
Qed.

Lemma X14_get_changed_files_empty_witness :
  get_changed_files (λ _ _, mkCompleted 0 (String LF (String LF "")) "warning: x")
    "origin/main" None = inr [].
Proof. by apply X14_get_changed_files_empty. Defined.

(** * The relativizer and the mapper together *)

(** X15. Triggers and packages are looked for inside the workspace only:
    for a workspace root below the repository root, changed files that are
    neither the workspace directory nor below it leave the mapping of the
    relativized list as it is without them, wherever they stand. A
    [pyproject.toml] at the root of the repository does not set
    [test_all] for a workspace in a subdirectory. *)
Theorem X15_outside_files_do_not_count (resolve : list string → list string)
    (git_root workspace_root rel : list string) (before outside after : list string)
    (packages : Packages) (root_triggers dir_triggers : option (gset string)) :
  rel ≠ [] →
  resolve workspace_root = resolve git_root ++ rel →
  Forall (λ f, f ≠ path_str rel ∧ String.prefix (path_str rel +:+ "/") f = false)
    outside →
  map_files_to_packages
    (relativize_to_workspace resolve (before ++ outside ++ after) git_root workspace_root)
    packages root_triggers dir_triggers =
  map_files_to_packages
    (relativize_to_workspace resolve (before ++ after) git_root workspace_root)
    packages root_triggers dir_triggers.
Proof.
  intros Hrel Heq Hout. f_equal.
  rewrite !(relativize_descendant resolve git_root workspace_root rel) by done.
  rewrite !omap_app. f_equal.
  replace (omap (relativize_one (path_str rel)) outside) with (@nil string); [done|].
  symmetry. induction Hout as [|f outside [Hne Hpre] Hout IH]; [done|].
  rewrite omap_cons_eq, IH.
  unfold relativize_one. rewrite Hpre.
  by destruct (String.eqb_spec f (path_str rel)).
Qed.

Lemma X15_outside_files_do_not_count_witness :
  map_files_to_packages
    (relativize_to_workspace id
       (["ws/packages/core/a.py"] ++ ["pyproject.toml"; ".github/ci.yml"; "wsx/b.py"] ++
        ["ws/README.md"])
       ["repo"] ["repo"; "ws"])
    [("core", mkPackage "core" "packages/core")] None None =
  ({[ "core" ]}, false).
Proof.
  rewrite (X15_outside_files_do_not_count id ["repo"] ["repo"; "ws"] ["ws"]);
    [by vm_compute|done|done|].
  repeat (apply Forall_cons; split; [by split|]). constructor.
Defined.
